(** * tempcontrol: temperature classification and actuation

    A shallow embedding of [tempcontrol.c], the fan and LED controller of
    the Smart Cooling Hat, and the properties of its classifier, of its
    actuator table and of its three run modes.

    - C [double] values are IEEE 754 binary64 numbers, taken from the
      Standard Library's executable specification [SpecFloat];
    - C [int] values are [Z];
    - the globals, the outside world (I2C bus, temperature file, display,
      output streams, clock) and the log of the calls made to it are one
      record [World], threaded through a state monad whose failure case is
      a crash of the process. *)

From Stdlib Require Import ZArith QArith Lqa List String Ascii Bool Lia.
From Stdlib Require Import Floats.SpecFloat.
From Stdlib Require Import DecimalString DecimalPos DecimalN DecimalZ.
Import ListNotations.

Local Open Scope Z_scope.

(** ** IEEE 754 binary64, the C [double] *)

Module Binary64.

Definition prec : Z := 53.
Definition emax : Z := 1024.

Definition double : Type := spec_float.

(** Conversion of a C [int] to [double] (exact for 32-bit values). *)
Definition of_int (i : Z) : double := binary_normalize prec emax i 0 false.

(** The C operators [<] and [/] on doubles. *)
Definition ltb (x y : double) : bool := SFltb x y.
Definition div (x y : double) : double := SFdiv prec emax x y.

(** A well-formed binary64 datum, and a finite one. *)
Definition valid (x : double) : bool := valid_binary prec emax x.

Definition is_finite (x : double) : bool :=
  match x with
  | S754_zero _ | S754_finite _ _ _ => true
  | S754_infinity _ | S754_nan => false
  end.

(** The signed mantissa of a finite double. *)
Definition mantissa (x : double) : Z :=
  match x with
  | S754_finite s m _ => if s then Zneg m else Zpos m
  | _ => 0
  end.

Definition exponent (x : double) : Z :=
  match x with
  | S754_finite _ _ e => e
  | _ => 0
  end.

(** The exact value [mantissa * 2 ^ exponent] of a finite double, as a
    rational number. *)
Definition to_Q (x : double) : Q :=
  if 0 <=? exponent x
  then inject_Z (mantissa x * 2 ^ exponent x)
  else Qmake (mantissa x) (Z.to_pos (2 ^ (- exponent x))).

(** The same value counted in units of [2 ^ emin], the least positive
    double: an integer for every valid double. *)
Definition scaled (x : double) : Z :=
  mantissa x * 2 ^ (exponent x - emin prec emax).

End Binary64.

Abbreviation double := Binary64.double.

(** ** The temperature ranges *)

Definition MAX_SIZE : Z := 32.
Definition MAX_LED : Z := 3.
Definition MAX_RANGE : Z := 7.

Inductive TempRange : Type :=
| TempBelow40
| Temp40To45
| Temp45To47
| Temp47To49
| Temp49To51
| Temp51To53
| TempAbove53.

(** The integer value of an enumerator. *)
Definition TempRange_to_Z (r : TempRange) : Z :=
  match r with
  | TempBelow40 => 0
  | Temp40To45 => 1
  | Temp45To47 => 2
  | Temp47To49 => 3
  | Temp49To51 => 4
  | Temp51To53 => 5
  | TempAbove53 => 6
  end.

(** The cast [(enum TempRange)i]; an [int] outside 0..6 names no
    enumerator. *)
Definition TempRange_of_Z (i : Z) : option TempRange :=
  match i with
  | 0 => Some TempBelow40
  | 1 => Some Temp40To45
  | 2 => Some Temp45To47
  | 3 => Some Temp47To49
  | 4 => Some Temp49To51
  | 5 => Some Temp51To53
  | 6 => Some TempAbove53
  | _ => None
  end.

Definition TempRange_eqb (a b : TempRange) : bool :=
  TempRange_to_Z a =? TempRange_to_Z b.

(** [temperatureRange]: the range the supplied temperature lies in.  The
    integer constants are converted to [double] by the comparison. *)
Definition temperatureRange (temperature : double) : TempRange :=
  if Binary64.ltb temperature (Binary64.of_int 40) then TempBelow40
  else if Binary64.ltb temperature (Binary64.of_int 45) then Temp40To45
  else if Binary64.ltb temperature (Binary64.of_int 47) then Temp45To47
  else if Binary64.ltb temperature (Binary64.of_int 49) then Temp47To49
  else if Binary64.ltb temperature (Binary64.of_int 51) then Temp49To51
  else if Binary64.ltb temperature (Binary64.of_int 53) then Temp51To53
  else TempAbove53.

(** ** The world: globals, environment and call log *)

(** Text written to [stdout] or [stderr].  Formatted output keeps its
    arguments instead of their rendering. *)
Inductive Message : Type :=
| Text (s : string)
| SimulatedTemperature (t : double)   (* "Simulated temperature now: %.1f -- " *)
| InRange (r : Z)                     (* "in range: %i\n" *)
| SettingsApplied (r : Z)             (* "Settings applied for TempRange: %i\n" *)
| UnknownOption (opt : string).       (* "unknown option %s\n" *)

(** The calls the program makes to the outside, in the order made. *)
Inductive Event : Type :=
| EWiringPiSetup
| EI2CSetup (addr result : Z)         (* wiringPiI2CSetup(addr) gave result *)
| EI2CWrite (fd reg data : Z)         (* wiringPiI2CWriteReg8(fd, reg, data) *)
| EClose (fd : Z)                     (* close(fd) *)
| EFopen (ok : bool)                  (* fopen(TEMP_PATH, "r") *)
| ERewind
| EFread (count : nat)                (* fread(buf, 1, MAX_SIZE, file) gave count *)
| EShow (temperature : double)        (* showProperties() with this gTemperature *)
| EDelay (ms : Z)
| EStdout (m : Message)
| EStderr (m : Message).

(** What one [fread] leaves behind: the number of bytes read (0 when the
    read fails) and the bytes of [buf] as [atoi] then sees them, which are
    the bytes read followed by whatever the uninitialised buffer held. *)
Record FreadOutcome : Type := mkFread {
  fread_count : nat;
  fread_buf : string
}.

(** The environment: the answers of the outside world, by call number. *)
Record Env : Type := mkEnv {
  i2c_setup_result : nat -> Z;        (* a handle, or -1 when unavailable *)
  fopen_ok : bool;
  fread_result : nat -> FreadOutcome
}.

Record World : Type := mkWorld {
  gFileI2C : Z;
  gTemperature : double;
  pFileTemperature : bool;            (* false is NULL *)
  i2c_setups : nat;                   (* calls of wiringPiI2CSetup so far *)
  freads : nat;                       (* calls of fread so far *)
  trace : list Event;
  env : Env
}.

(** The state at program start: [gFileI2C = 0], [gTemperature = 0.0],
    [pFileTemperature = NULL]. *)
Definition initial_world (e : Env) : World :=
  mkWorld 0 (S754_zero false) false 0 0 [] e.

(** ** The monad: state, with [None] for a crashed process *)

Definition M (A : Type) : Type := World -> option (A * World).

Definition ret {A} (a : A) : M A := fun w => Some (a, w).

Definition bind {A B} (m : M A) (k : A -> M B) : M B :=
  fun w => match m w with
           | Some (a, w') => k a w'
           | None => None
           end.

Definition crash {A} : M A := fun _ => None.

Declare Scope monad_scope.
Delimit Scope monad_scope with monad.
Notation "x <- m ;; k" := (bind m (fun x => k))
  (at level 61, m at next level, right associativity) : monad_scope.
Notation "m ;; k" := (bind m (fun _ => k))
  (at level 61, right associativity) : monad_scope.
Local Open Scope monad_scope.

Definition get : M World := fun w => Some (w, w).

Definition emit (e : Event) : M unit :=
  fun w => Some (tt, mkWorld (gFileI2C w) (gTemperature w) (pFileTemperature w)
                       (i2c_setups w) (freads w) (trace w ++ [e]) (env w)).

Definition set_gFileI2C (fd : Z) : M unit :=
  fun w => Some (tt, mkWorld fd (gTemperature w) (pFileTemperature w)
                       (i2c_setups w) (freads w) (trace w) (env w)).

Definition set_gTemperature (t : double) : M unit :=
  fun w => Some (tt, mkWorld (gFileI2C w) t (pFileTemperature w)
                       (i2c_setups w) (freads w) (trace w) (env w)).

Definition set_pFileTemperature (f : bool) : M unit :=
  fun w => Some (tt, mkWorld (gFileI2C w) (gTemperature w) f
                       (i2c_setups w) (freads w) (trace w) (env w)).

(** ** The library calls *)

Definition wiringPiSetup : M unit := emit EWiringPiSetup.

Definition wiringPiI2CSetup (addr : Z) : M Z :=
  fun w =>
    let fd := i2c_setup_result (env w) (i2c_setups w) in
    Some (fd, mkWorld (gFileI2C w) (gTemperature w) (pFileTemperature w)
                (S (i2c_setups w)) (freads w)
                (trace w ++ [EI2CSetup addr fd]) (env w)).

Definition wiringPiI2CWriteReg8 (fd reg data : Z) : M unit :=
  emit (EI2CWrite fd reg data).

Definition close (fd : Z) : M unit := emit (EClose fd).

Definition delay (ms : Z) : M unit := emit (EDelay ms).

Definition fprintf_stderr (m : Message) : M unit := emit (EStderr m).
Definition printf (m : Message) : M unit := emit (EStdout m).

(** [fopen(TEMP_PATH, "r")]: true for a stream, false for NULL. *)
Definition fopen_temperature : M bool :=
  w <- get ;;
  emit (EFopen (fopen_ok (env w))) ;;
  ret (fopen_ok (env w)).

(** [rewind] and [fread] dereference the stream: on NULL the process
    crashes. *)
Definition rewind_temperature : M unit :=
  w <- get ;;
  if pFileTemperature w then emit ERewind else crash.

Definition fread_temperature : M FreadOutcome :=
  fun w =>
    if pFileTemperature w then
      let r := fread_result (env w) (freads w) in
      Some (r, mkWorld (gFileI2C w) (gTemperature w) (pFileTemperature w)
                 (i2c_setups w) (S (freads w))
                 (trace w ++ [EFread (fread_count r)]) (env w))
    else None.

(** [atoi]: leading white space, an optional sign, then decimal digits up
    to the first other byte.  Within the range of [int] the result is the
    number written.  Beyond it C leaves the result open; the model takes
    what glibc does where [long] has 64 bits: [atoi] is [strtol] converted
    to [int], [strtol] saturates at [LONG_MIN] and [LONG_MAX], and the
    conversion keeps the low 32 bits. *)
Definition wrap_int (z : Z) : Z := (z + 2 ^ 31) mod 2 ^ 32 - 2 ^ 31.

Definition saturate_long (z : Z) : Z :=
  Z.max (- 2 ^ 63) (Z.min (2 ^ 63 - 1) z).

Definition isspace (c : ascii) : bool :=
  let n := Z.of_nat (nat_of_ascii c) in
  (n =? 32) || ((9 <=? n) && (n <=? 13)).

Definition digit_of (c : ascii) : option Z :=
  let n := Z.of_nat (nat_of_ascii c) in
  if (48 <=? n) && (n <=? 57) then Some (n - 48) else None.

Fixpoint atoi_digits (s : string) (acc : Z) : Z :=
  match s with
  | String c s' =>
      match digit_of c with
      | Some d => atoi_digits s' (10 * acc + d)
      | None => acc
      end
  | EmptyString => acc
  end.

Fixpoint skip_spaces (s : string) : string :=
  match s with
  | String c s' => if isspace c then skip_spaces s' else s
  | EmptyString => s
  end.

Definition atoi (s : string) : Z :=
  match skip_spaces s with
  | String "-" s' => wrap_int (saturate_long (- atoi_digits s' 0))
  | String "+" s' => wrap_int (saturate_long (atoi_digits s' 0))
  | s' => wrap_int (saturate_long (atoi_digits s' 0))
  end.

(** [strcmp(a, b) == 0]. *)
Definition streq (a b : string) : bool := String.eqb a b.

Definition nl : string := String (ascii_of_nat 10) EmptyString.
Definition tab : string := String (ascii_of_nat 9) EmptyString.

(** ** The program *)

(** [showProperties]: renders the system properties and [gTemperature] on
    the OLED display.  The display and the system queries are outside the
    controller; the call is logged with the temperature it shows, and the
    run followed is the one in which the rendering returns.  Its loop over
    the network interfaces, which dereferences [ifa_addr] unchecked, is
    modelled apart as [ipInfo] below.  What is proved of the code that
    renders is therefore what a run does around renderings that return,
    not that they return. *)
Definition showProperties : M Z :=
  w <- get ;;
  emit (EShow (gTemperature w)) ;;
  ret 0.

(** [init]: open the I2C channel and the temperature file; 0 if both
    succeeded, -1 otherwise. *)
Definition init : M Z :=
  let returnValue := 0 in
  wiringPiSetup ;;
  fd <- wiringPiI2CSetup 0x0d ;;
  set_gFileI2C fd ;;
  returnValue <-
    (if fd <? 0
     then fprintf_stderr (Text ("Could not init I2C" ++ nl)) ;; ret (-1)
     else ret returnValue) ;;
  f <- fopen_temperature ;;
  set_pFileTemperature f ;;
  returnValue <-
    (if negb f
     then fprintf_stderr (Text ("Could not open temperature file" ++ nl)) ;;
          ret (-1)
     else ret returnValue) ;;
  ret returnValue.

(** [setRGB]: all LEDs when [num >= MAX_LED], LED [num] when
    [0 <= num < MAX_LED], nothing otherwise. *)
Definition setRGB (fd num R G B : Z) : M unit :=
  if MAX_LED <=? num then
    wiringPiI2CWriteReg8 fd 0x00 0xff ;;
    wiringPiI2CWriteReg8 fd 0x01 R ;;
    wiringPiI2CWriteReg8 fd 0x02 G ;;
    wiringPiI2CWriteReg8 fd 0x03 B
  else if 0 <=? num then
    wiringPiI2CWriteReg8 fd 0x00 num ;;
    wiringPiI2CWriteReg8 fd 0x01 R ;;
    wiringPiI2CWriteReg8 fd 0x02 G ;;
    wiringPiI2CWriteReg8 fd 0x03 B
  else ret tt.

(** [setTempControls]: fan speed and LED colour for [tempRange], the
    integer value of an [enum TempRange]; the [default] case of the
    [switch] is [None]. *)
Definition setTempControls (tempRange : Z) (verbose : bool) : M Z :=
  let returnValue := 0 in
  w <- get ;;
  (if gFileI2C w =? 0
   then fd <- wiringPiI2CSetup 0x0d ;; set_gFileI2C fd
   else ret tt) ;;
  w <- get ;;
  let fd := gFileI2C w in
  returnValue <-
    match TempRange_of_Z tempRange with
    | Some TempBelow40 =>
        wiringPiI2CWriteReg8 fd 0x08 0x00 ;;
        setRGB fd MAX_LED 0x00 0x88 0x00 ;;
        ret returnValue
    | Some Temp40To45 =>
        wiringPiI2CWriteReg8 fd 0x08 0x02 ;;
        setRGB fd MAX_LED 0x00 0x44 0x44 ;;
        ret returnValue
    | Some Temp45To47 =>
        wiringPiI2CWriteReg8 fd 0x08 0x04 ;;
        setRGB fd MAX_LED 0x00 0x00 0x88 ;;
        ret returnValue
    | Some Temp47To49 =>
        wiringPiI2CWriteReg8 fd 0x08 0x06 ;;
        setRGB fd MAX_LED 0x44 0x00 0x44 ;;
        ret returnValue
    | Some Temp49To51 =>
        wiringPiI2CWriteReg8 fd 0x08 0x08 ;;
        setRGB fd MAX_LED 0x88 0x00 0x00 ;;
        ret returnValue
    | Some Temp51To53 =>
        wiringPiI2CWriteReg8 fd 0x08 0x09 ;;
        setRGB fd MAX_LED 0xff 0x00 0x00 ;;
        ret returnValue
    | Some TempAbove53 =>
        wiringPiI2CWriteReg8 fd 0x08 0x01 ;;
        setRGB fd MAX_LED 0xff 0xff 0xff ;;
        ret returnValue
    | None => ret (-1)
    end ;;
  (if verbose then printf (SettingsApplied tempRange) else ret tt) ;;
  w <- get ;;
  close (gFileI2C w) ;;
  set_gFileI2C 0 ;;
  ret returnValue.

(** [updateTemperature]: refresh [gTemperature] from the temperature file.
    The count returned by [fread] is not looked at, and [returnValue] is
    never assigned after its initialisation. *)
Definition updateTemperature : M Z :=
  let returnValue := 0 in
  rewind_temperature ;;
  r <- fread_temperature ;;
  set_gTemperature
    (Binary64.div (Binary64.of_int (atoi (fread_buf r)))
                  (Binary64.of_int 1000)) ;;
  ret returnValue.

(** A C [for] loop over an [int] counter, carrying the loop's local state.
    [fuel] bounds the number of iterations; running out of it is [None]. *)
Fixpoint for_loop {S : Type} (fuel : nat) (cond : Z -> bool) (next : Z -> Z)
    (body : Z -> S -> M S) (i : Z) (s : S) : M S :=
  if cond i then
    match fuel with
    | O => crash
    | Datatypes.S fuel' =>
        s' <- body i s ;;
        for_loop fuel' cond next body (next i) s'
    end
  else ret s.

(** One iteration of the loop of [sweepTemperatures]. *)
Definition sweepTemperatures_body (i : Z) (oldRange : TempRange)
  : M TempRange :=
  set_gTemperature (Binary64.of_int i) ;;
  showProperties ;;
  w <- get ;;
  let tempRange := temperatureRange (gTemperature w) in
  fprintf_stderr (SimulatedTemperature (gTemperature w)) ;;
  fprintf_stderr (InRange (TempRange_to_Z tempRange)) ;;
  oldRange <-
    (if negb (TempRange_eqb tempRange oldRange)
     then setTempControls (TempRange_to_Z tempRange) true ;; ret tempRange
     else ret oldRange) ;;
  delay 1000 ;;
  ret oldRange.

(** [sweepTemperatures]: [for ( i = 30; i < 65; i++ )].  The function has
    no [return] statement: it yields no value. *)
Definition sweepTemperatures : M unit :=
  let oldRange := TempAbove53 in
  for_loop 35 (fun i => i <? 65) (fun i => i + 1)
           sweepTemperatures_body 30 oldRange ;;
  ret tt.

(** [sweepTempRanges]: the ranges in descending, then ascending order. *)
Definition sweepTempRanges : M Z :=
  for_loop 7 (fun i => 0 <=? i) (fun i => i - 1)
           (fun i _ => setTempControls i true ;; delay 1000)
           (MAX_RANGE - 1) tt ;;
  for_loop 7 (fun i => i <? MAX_RANGE) (fun i => i + 1)
           (fun i _ => setTempControls i true ;; delay 1000)
           0 tt ;;
  ret 0.

(** The locals of [runControlLoop]. *)
Record LoopState : Type := mkLoop {
  returnValue : Z;
  oldRange : TempRange
}.

(** One iteration of [while ( true )] in [runControlLoop]. *)
Definition runControlLoop_body (s : LoopState) : M LoopState :=
  returnValue <- updateTemperature ;;
  showProperties ;;
  s' <-
    (if returnValue =? 0 then
       w <- get ;;
       let tempRange := temperatureRange (gTemperature w) in
       if negb (TempRange_eqb tempRange (oldRange s))
       then returnValue <- setTempControls (TempRange_to_Z tempRange) false ;;
            ret (mkLoop returnValue tempRange)
       else ret (mkLoop returnValue (oldRange s))
     else ret (mkLoop returnValue (oldRange s))) ;;
  delay 5000 ;;
  ret s'.

Fixpoint iterate (n : nat) (body : LoopState -> M LoopState) (s : LoopState)
  : M LoopState :=
  match n with
  | O => ret s
  | S n' => s' <- body s ;; iterate n' body s'
  end.

(** [runControlLoop] never leaves its loop; [runControlLoop cycles] is the
    state of the run after [cycles] iterations. *)
Definition runControlLoop (cycles : nat) : M LoopState :=
  iterate cycles runControlLoop_body (mkLoop 0 TempAbove53).

(** How a run of [main] stands: exited with a status, exited with the
    value of a function that returned none, or still in the control loop
    after the observed cycles. *)
Inductive Outcome : Type :=
| Exit (status : Z)
| ExitIndeterminate
| Running.

Definition usage : M unit :=
  fprintf_stderr (Text ("Usage:" ++ nl)) ;;
  fprintf_stderr (Text (tab ++ " tempcontrol, or" ++ nl)) ;;
  fprintf_stderr (Text (tab ++ " tempcontrol -t sweepTempRanges, or" ++ nl)) ;;
  fprintf_stderr (Text (tab ++ " tempcontrol -t sweepTemperatures" ++ nl)).

(** The code of [main] below its first [if]. *)
Definition main_arguments (argv : list string) : M Outcome :=
  let argc := Z.of_nat (List.length argv) in
  if negb (argc =? 3) || negb (streq (List.nth 1 argv EmptyString) "-t") then
    usage ;;
    ret (Exit (-1))
  else if streq (List.nth 2 argv EmptyString) "sweepTemperatures" then
    fprintf_stderr (Text ("sweepTemperatures" ++ nl)) ;;
    sweepTemperatures ;;
    ret ExitIndeterminate
  else if streq (List.nth 2 argv EmptyString) "sweepTempRanges" then
    fprintf_stderr (Text ("sweepTempRanges" ++ nl)) ;;
    r <- sweepTempRanges ;;
    ret (Exit r)
  else
    fprintf_stderr (UnknownOption (List.nth 2 argv EmptyString)) ;;
    ret (Exit (-1)).

(** [main]; [argc] is the length of [argv], and [cycles] is the number of
    iterations of the control loop that are observed. *)
Definition main (cycles : nat) (argv : list string) : M Outcome :=
  let argc := Z.of_nat (List.length argv) in
  r <- init ;;
  if negb (r =? 0) then
    fprintf_stderr (Text ("Init failed" ++ nl)) ;;
    main_arguments argv
  else if argc =? 1 then
    runControlLoop cycles ;;
    ret Running
  else
    main_arguments argv.

(** ** The bands of the specification *)

(** The bands of section 3 as intervals of exact values: lower bound
    inclusive, upper bound exclusive. *)
Definition in_range (r : TempRange) (q : Q) : Prop :=
  match r with
  | TempBelow40 => (q < 40)%Q
  | Temp40To45 => (40 <= q /\ q < 45)%Q
  | Temp45To47 => (45 <= q /\ q < 47)%Q
  | Temp47To49 => (47 <= q /\ q < 49)%Q
  | Temp49To51 => (49 <= q /\ q < 51)%Q
  | Temp51To53 => (51 <= q /\ q < 53)%Q
  | TempAbove53 => (53 <= q)%Q
  end.

Definition boundaries : list Z := [40; 45; 47; 49; 51; 53].

Definition upper_ranges : list TempRange :=
  [Temp40To45; Temp45To47; Temp47To49; Temp49To51; Temp51To53; TempAbove53].

(** ** The tables of the specification *)

(** The bands in ascending order. *)
Definition all_ranges : list TempRange :=
  [TempBelow40; Temp40To45; Temp45To47; Temp47To49; Temp49To51; Temp51To53;
   TempAbove53].

(** The fan-duty register byte of each band. *)
Definition fan_duty_byte (r : TempRange) : Z :=
  match r with
  | TempBelow40 => 0x00
  | Temp40To45 => 0x02
  | Temp45To47 => 0x04
  | Temp47To49 => 0x06
  | Temp49To51 => 0x08
  | Temp51To53 => 0x09
  | TempAbove53 => 0x01
  end.

(** The colour (R, G, B) of each band, section 4.2. *)
Definition colour (r : TempRange) : Z * Z * Z :=
  match r with
  | TempBelow40 => (0, 136, 0)
  | Temp40To45 => (0, 68, 68)
  | Temp45To47 => (0, 0, 136)
  | Temp47To49 => (68, 0, 68)
  | Temp49To51 => (136, 0, 0)
  | Temp51To53 => (255, 0, 0)
  | TempAbove53 => (255, 255, 255)
  end.

(** The register writes of one application of a band, as (register,
    byte): the fan duty, then the all-LEDs marker and the three colour
    channels. *)
Definition band_writes (r : TempRange) : list (Z * Z) :=
  let '(R, G, B) := colour r in
  [(0x08, fan_duty_byte r); (0x00, 0xff); (0x01, R); (0x02, G); (0x03, B)].

(** ** Observations on a call log *)

(** The register writes of a log, as (register, byte). *)
Definition register_writes (t : list Event) : list (Z * Z) :=
  flat_map (fun e => match e with
                     | EI2CWrite _ reg data => [(reg, data)]
                     | _ => []
                     end) t.

(** The handles the register writes of a log went to. *)
Definition write_handles (t : list Event) : list Z :=
  flat_map (fun e => match e with
                     | EI2CWrite fd _ _ => [fd]
                     | _ => []
                     end) t.

(** The opening and closing calls of a log. *)
Definition channel_calls (t : list Event) : list Event :=
  filter (fun e => match e with
                   | EI2CSetup _ _ | EClose _ => true
                   | _ => false
                   end) t.

(** The temperatures rendered, in order. *)
Definition shown (t : list Event) : list double :=
  flat_map (fun e => match e with EShow x => [x] | _ => [] end) t.

(** The applications of a log: for each write of the fan-duty register,
    the temperature last rendered before it and the byte written. *)
Fixpoint applications_from (last : double) (t : list Event)
  : list (double * Z) :=
  match t with
  | [] => []
  | EShow x :: t' => applications_from x t'
  | EI2CWrite _ reg data :: t' =>
      if reg =? 0x08 then (last, data) :: applications_from last t'
      else applications_from last t'
  | _ :: t' => applications_from last t'
  end.

Definition applications (t : list Event) : list (double * Z) :=
  applications_from (S754_zero false) t.

(** The handle [setTempControls] works on when entered in world [w], and
    the call that opens it. *)
Definition handle (w : World) : Z :=
  if gFileI2C w =? 0 then i2c_setup_result (env w) (i2c_setups w)
  else gFileI2C w.

Definition opening (w : World) : list Event :=
  if gFileI2C w =? 0 then [EI2CSetup 0x0d (handle w)] else [].

(** The calls of one [setTempControls] between opening and closing. *)
Definition actuation (fd tempRange : Z) (verbose : bool) : list Event :=
  match TempRange_of_Z tempRange with
  | Some r => map (fun rd => EI2CWrite fd (fst rd) (snd rd)) (band_writes r)
  | None => []
  end ++ (if verbose then [EStdout (SettingsApplied tempRange)] else []).

(** The world [setTempControls] leaves. *)
Definition after_setTempControls (tempRange : Z) (verbose : bool) (w : World)
  : World :=
  mkWorld 0 (gTemperature w) (pFileTemperature w)
          (if gFileI2C w =? 0 then S (i2c_setups w) else i2c_setups w)
          (freads w)
          (trace w ++ opening w ++ actuation (handle w) tempRange verbose
                   ++ [EClose (handle w)])
          (env w).

(** ** The control cycle in closed form *)

(** The temperature the [k]-th [fread] of an environment leads to. *)
Definition reading (e : Env) (k : nat) : double :=
  Binary64.div (Binary64.of_int (atoi (fread_buf (fread_result e k))))
               (Binary64.of_int 1000).

(** The calls of one iteration of the control loop entered with locals [s]
    in world [w]. *)
Definition cycle_events (s : LoopState) (w : World) : list Event :=
  let t := reading (env w) (freads w) in
  let r := temperatureRange t in
  [ERewind; EFread (fread_count (fread_result (env w) (freads w))); EShow t]
  ++ (if TempRange_eqb r (oldRange s) then []
      else opening w ++ actuation (handle w) (TempRange_to_Z r) false
                     ++ [EClose (handle w)])
  ++ [EDelay 5000].

(** The locals and the world one iteration leaves. *)
Definition after_cycle (s : LoopState) (w : World) : LoopState * World :=
  let t := reading (env w) (freads w) in
  let r := temperatureRange t in
  let same := TempRange_eqb r (oldRange s) in
  (mkLoop 0 (if same then oldRange s else r),
   mkWorld (if same then gFileI2C w else 0)
           t
           (pFileTemperature w)
           (if same then i2c_setups w
            else if gFileI2C w =? 0 then S (i2c_setups w) else i2c_setups w)
           (S (freads w))
           (trace w ++ cycle_events s w)
           (env w)).

(** Suppression on change: of the temperatures of successive cycles, those
    whose band differs from the band applied last, with that band. *)
Fixpoint suppress (old : TempRange) (ts : list double)
  : list (double * TempRange) :=
  match ts with
  | [] => []
  | t :: ts' =>
      let r := temperatureRange t in
      if TempRange_eqb r old then suppress old ts'
      else (t, r) :: suppress r ts'
  end.

(** The applications that go with the readings suppression leaves: the
    temperature and the fan-duty byte of its band. *)
Definition applied (l : list (double * TempRange)) : list (double * Z) :=
  map (fun p => (fst p, fan_duty_byte (snd p))) l.

(** The settings reported on [stdout], in order. *)
Definition reported (t : list Event) : list Z :=
  flat_map (fun e => match e with
                     | EStdout (SettingsApplied r) => [r]
                     | _ => []
                     end) t.

(** The pauses of a log, in order. *)
Definition delays (t : list Event) : list Z :=
  flat_map (fun e => match e with EDelay ms => [ms] | _ => [] end) t.

(** The temperatures of the sweep: 30, 31, ..., 64. *)
Definition sweep_values : list Z := map Z.of_nat (seq 30 35).

(** ** [init] in closed form *)

(** A world with further calls logged. *)
Definition log (es : list Event) (w : World) : World :=
  mkWorld (gFileI2C w) (gTemperature w) (pFileTemperature w)
          (i2c_setups w) (freads w) (trace w ++ es) (env w).

(** The value [init] returns in world [w], and the world it leaves. *)
Definition init_result (w : World) : Z :=
  if negb (fopen_ok (env w)) then -1
  else if i2c_setup_result (env w) (i2c_setups w) <? 0 then -1
  else 0.

Definition after_init (w : World) : World :=
  let fd := i2c_setup_result (env w) (i2c_setups w) in
  mkWorld fd (gTemperature w) (fopen_ok (env w))
          (S (i2c_setups w)) (freads w)
          (trace w
           ++ [EWiringPiSetup; EI2CSetup 0x0d fd]
           ++ (if fd <? 0
               then [EStderr (Text ("Could not init I2C" ++ nl))] else [])
           ++ [EFopen (fopen_ok (env w))]
           ++ (if negb (fopen_ok (env w))
               then [EStderr (Text ("Could not open temperature file" ++ nl))]
               else []))
          (env w).

(** ** Bench environments *)

(** Every channel request is granted (handles 3, 4, ...), the temperature
    file opens, and the successive reads deliver [bufs]. *)
Definition bench_env (bufs : list string) : Env :=
  mkEnv (fun k => 3 + Z.of_nat k) true
        (fun k => let buf := List.nth k bufs EmptyString in
                  mkFread (String.length buf) buf).

(** The readings 38, 42, 42 and 61 degrees, in millidegrees as the
    thermal zone presents them. *)
Definition scenario_env : Env :=
  bench_env ["38000" ++ nl; "42000" ++ nl; "42000" ++ nl;
             "61000" ++ nl]%string.

(** The readings 60 and 53 degrees: twice the band the control loop takes
    as applied when it starts. *)
Definition steady_env : Env :=
  bench_env ["60000" ++ nl; "53000" ++ nl]%string.

(** As [bench_env], but the second channel request (the first one made by
    an actuation) is refused. *)
Definition unavailable_env : Env :=
  mkEnv (fun k => if Nat.eqb k 1 then -1 else 3 + Z.of_nat k) true
        (fread_result
           (bench_env ["38000" ++ nl; "42000" ++ nl; "42000" ++ nl]%string)).

(** The temperature file opens but every read fails, leaving in [buf]
    what the stack held. *)
Definition failed_read_env : Env :=
  mkEnv (fun k => 3 + Z.of_nat k) true (fun _ => mkFread 0 "47123?"%string).

(** The temperature file cannot be opened. *)
Definition no_sensor_env : Env :=
  mkEnv (fun k => 3 + Z.of_nat k) false (fun _ => mkFread 0 EmptyString).


(** ** The channel protocol *)

(** The handle the program holds open in world [w]: [gFileI2C] when it is
    a descriptor the channel granted; 0 stands for none, and -1, which a
    refused request leaves there, is no handle either. *)
Definition held_of (w : World) : option Z :=
  if 0 <? gFileI2C w then Some (gFileI2C w) else None.

(** A log checked against the protocol of the channel, from the handle
    open at its start: a handle is requested only when none is open, a
    register is written only through the handle that is open, and [close]
    is called on the handle that is open and on no other.  A request that
    is refused (a negative result) opens nothing, so a write or a [close]
    that follows it is a violation.  The result is the handle open at the
    end; [None] is a violation. *)
Fixpoint follows_protocol (held : option Z) (t : list Event)
  : option (option Z) :=
  match t with
  | [] => Some held
  | EI2CSetup _ fd :: t' =>
      match held with
      | None => follows_protocol (if 0 <=? fd then Some fd else None) t'
      | Some _ => None
      end
  | EI2CWrite fd _ _ :: t' =>
      match held with
      | Some h => if fd =? h then follows_protocol held t' else None
      | None => None
      end
  | EClose fd :: t' =>
      match held with
      | Some h => if fd =? h then follows_protocol None t' else None
      | None => None
      end
  | _ :: t' => follows_protocol held t'
  end.

(** An environment in which every request for the channel is granted,
    with a descriptor above the standard streams. *)
Definition granted (e : Env) : Prop :=
  forall k, 0 < i2c_setup_result e k.

(** A computation keeps the protocol when, with every request granted and
    [gFileI2C] holding 0 or a handle, every run of it leaves [gFileI2C] so
    and extends the log by calls that follow the protocol from the handle
    open before to the handle open after. *)
Definition keeps_protocol {A : Type} (m : M A) : Prop :=
  forall w a w',
    granted (env w) -> 0 <= gFileI2C w ->
    m w = Some (a, w') ->
    env w' = env w /\ 0 <= gFileI2C w' /\
    exists new,
      trace w' = trace w ++ new /\
      follows_protocol (held_of w) new = Some (held_of w').

(** The events that are no call on the channel. *)
Definition off_channel (e : Event) : bool :=
  match e with
  | EI2CSetup _ _ | EI2CWrite _ _ _ | EClose _ => false
  | _ => true
  end.

(** The calls on the temperature file of a log. *)
Definition sensor_calls (t : list Event) : list Event :=
  filter (fun e => match e with
                   | ERewind | EFread _ => true
                   | _ => false
                   end) t.

(** The shape of the log of one cycle of the control loop: the reading of
    the sensor, the rendering, the calls of at most one actuation, the
    pause. *)
Definition cycle_shaped (es : list Event) : Prop :=
  exists count t act,
    es = [ERewind; EFread count; EShow t] ++ act ++ [EDelay 5000] /\
    shown act = [] /\ delays act = [] /\ sensor_calls act = [] /\
    (register_writes act = [] \/
     register_writes act = band_writes (temperatureRange t)).

(** ** The outcome of [main] *)

(** The argument shapes [main] tells apart. *)
Definition is_test (argv : list string) (test : string) : bool :=
  (Z.of_nat (List.length argv) =? 3)
  && streq (List.nth 1 argv EmptyString) "-t"
  && streq (List.nth 2 argv EmptyString) test.

(** The outcome by arguments and by the result of [init]. *)
Definition outcome_table (init_ok : bool) (argv : list string) : Outcome :=
  if init_ok && (Z.of_nat (List.length argv) =? 1) then Running
  else if is_test argv "sweepTemperatures" then ExitIndeterminate
  else if is_test argv "sweepTempRanges" then Exit 0
  else Exit (-1).

(** ** The band of a reading in millidegrees *)

Definition band_of_millidegrees (n : Z) : TempRange :=
  if n <? 40000 then TempBelow40
  else if n <? 45000 then Temp40To45
  else if n <? 47000 then Temp45To47
  else if n <? 49000 then Temp47To49
  else if n <? 51000 then Temp49To51
  else if n <? 53000 then Temp51To53
  else TempAbove53.

(** The text of a non-negative [int] in decimal, as the thermal zone
    prints it. *)
Definition decimal (n : Z) : string :=
  NilZero.string_of_uint (N.to_uint (Z.to_N n)).

(** The text of an [int] in decimal, with its sign. *)
Definition decimal_int (z : Z) : string :=
  if z <? 0 then String "-" (decimal (- z)) else decimal z.

(** ** The network label of [showProperties] *)

Definition AF_INET : Z := 2.
Definition INET_ADDRSTRLEN : Z := 16.

(** A socket address as the loop reads it: the family and, for an IPv4
    address, the text [inet_ntop] renders into [addressBuffer]. *)
Record sockaddr : Type := mkSockaddr {
  sa_family : Z;
  address_text : string
}.

(** A node of the list of [getifaddrs]; [ifa_addr] may be NULL. *)
Record ifaddrs : Type := mkIfaddrs {
  ifa_name : string;
  ifa_addr : option sockaddr
}.

(** The loop of [showProperties] over the interfaces.  [Some (Some t)] is
    the text written to [ipInfoTxt]; [Some None] leaves [ipInfoTxt] as it
    was; [None] is the crash on reading [sa_family] through a NULL
    [ifa_addr]. *)
Fixpoint ipInfo (pIfAddrStruct : list ifaddrs) : option (option string) :=
  match pIfAddrStruct with
  | [] => Some None
  | i :: ifa_next =>
      match ifa_addr i with
      | None => None
      | Some a =>
          if sa_family a =? AF_INET then
            if streq (ifa_name i) "eth0"
            then Some (Some ("eth0:IP:" ++ address_text a)%string)
            else if streq (ifa_name i) "wlan0"
            then Some (Some ("wlan0:" ++ address_text a)%string)
            else ipInfo ifa_next
          else ipInfo ifa_next
      end
  end.

(** The interfaces the loop stops at. *)
Definition shown_interface (i : ifaddrs) : bool :=
  match ifa_addr i with
  | Some a =>
      (sa_family a =? AF_INET)
      && (streq (ifa_name i) "eth0" || streq (ifa_name i) "wlan0")
  | None => false
  end.

Definition has_address (i : ifaddrs) : bool :=
  match ifa_addr i with Some _ => true | None => false end.

(** * Properties *)

(** ** Comparison of doubles *)

Module Binary64Facts.
Import Binary64.

Lemma emin_value : emin prec emax = -1074.
Proof. reflexivity. Qed.

Lemma digits2_pos_bounds (m : positive) :
  2 ^ (Zpos (digits2_pos m) - 1) <= Zpos m < 2 ^ Zpos (digits2_pos m).
Proof.
  induction m as [p IH | p IH | ]; cbn [digits2_pos].
  - rewrite Pos2Z.inj_succ, Z.pow_succ_r by lia.
    replace (Z.succ (Zpos (digits2_pos p)) - 1)
      with (Z.succ (Zpos (digits2_pos p) - 1)) by lia.
    rewrite Z.pow_succ_r by lia. lia.
  - rewrite Pos2Z.inj_succ, Z.pow_succ_r by lia.
    replace (Z.succ (Zpos (digits2_pos p)) - 1)
      with (Z.succ (Zpos (digits2_pos p) - 1)) by lia.
    rewrite Z.pow_succ_r by lia. lia.
  - cbn. lia.
Qed.

Lemma valid_finite_bounds s m e :
  valid (S754_finite s m e) = true ->
  -1074 <= e /\ Zpos m < 2 ^ 53 /\ (-1074 < e -> 2 ^ 52 <= Zpos m).
Proof.
  unfold valid, valid_binary, bounded, canonical_mantissa, fexp.
  rewrite emin_value. unfold prec, emax.
  intros H. apply andb_prop in H. destruct H as [H _].
  apply Z.eqb_eq in H.
  pose proof (digits2_pos_bounds m) as [Hlo Hhi].
  assert (Hd : Zpos (digits2_pos m) <= 53) by lia.
  split; [lia |]. split.
  - eapply Z.lt_le_trans; [exact Hhi |].
    apply Z.pow_le_mono_r; lia.
  - intros He.
    assert (Zpos (digits2_pos m) = 53) as E by lia.
    rewrite E in Hlo. exact Hlo.
Qed.

Lemma scaled_lt_of_exponent_lt m1 e1 m2 e2 :
  -1074 <= e1 -> e1 < e2 ->
  Zpos m1 < 2 ^ 53 -> 2 ^ 52 <= Zpos m2 ->
  Zpos m1 * 2 ^ (e1 + 1074) < Zpos m2 * 2 ^ (e2 + 1074).
Proof.
  intros H1 H12 Hm1 Hm2.
  replace (e2 + 1074) with ((e1 + 1074) + (e2 - e1)) by lia.
  rewrite (Z.pow_add_r 2 (e1 + 1074) (e2 - e1)) by lia.
  assert (HA : 0 < 2 ^ (e1 + 1074)) by (apply Z.pow_pos_nonneg; lia).
  assert (HD : 2 ^ 1 <= 2 ^ (e2 - e1)) by (apply Z.pow_le_mono_r; lia).
  change (2 ^ 1) with 2 in HD.
  change (2 ^ 53) with (2 * 2 ^ 52) in Hm1.
  set (A := 2 ^ (e1 + 1074)) in *. set (D := 2 ^ (e2 - e1)) in *.
  set (P := 2 ^ 52) in *.
  assert (Zpos m1 < D * Zpos m2) by nia.
  nia.
Qed.


Lemma compare_mul_pos a b p : 0 < p -> (a * p ?= b * p) = (a ?= b).
Proof.
  intros Hp. destruct (Z.compare_spec a b) as [E | L | G].
  - subst. apply Z.compare_refl.
  - apply Z.compare_lt_iff. nia.
  - apply Z.compare_gt_iff. nia.
Qed.

Lemma scaled_finite s m e :
  scaled (S754_finite s m e) = (if s then Zneg m else Zpos m) * 2 ^ (e + 1074).
Proof.
  unfold scaled. cbn [mantissa exponent]. rewrite emin_value.
  replace (e - -1074) with (e + 1074) by lia. reflexivity.
Qed.

Lemma scaled_zero s : scaled (S754_zero s) = 0.
Proof. reflexivity. Qed.

(** On valid finite doubles, the comparison of [SpecFloat] is the
    comparison of the exact values. *)
Lemma SFcompare_scaled x y :
  valid x = true -> valid y = true ->
  is_finite x = true -> is_finite y = true ->
  SFcompare x y = Some (scaled x ?= scaled y).
Proof.
  intros Vx Vy Fx Fy.
  destruct x as [sx | sx | | sx mx ex]; try discriminate Fx;
    destruct y as [sy | sy | | sy my ey]; try discriminate Fy;
    cbn [SFcompare]; rewrite ?scaled_finite, ?scaled_zero.
  - reflexivity.
  - apply valid_finite_bounds in Vy. destruct Vy as (Hy & _ & _).
    assert (0 < 2 ^ (ey + 1074)) by (apply Z.pow_pos_nonneg; lia).
    f_equal. symmetry. destruct sy.
    + apply Z.compare_gt_iff. nia.
    + apply Z.compare_lt_iff. nia.
  - apply valid_finite_bounds in Vx. destruct Vx as (Hx & _ & _).
    assert (0 < 2 ^ (ex + 1074)) by (apply Z.pow_pos_nonneg; lia).
    f_equal. symmetry. destruct sx.
    + apply Z.compare_lt_iff. nia.
    + apply Z.compare_gt_iff. nia.
  - apply valid_finite_bounds in Vx. destruct Vx as (Hx & Hxm & Hxn).
    apply valid_finite_bounds in Vy. destruct Vy as (Hy & Hym & Hyn).
    assert (Px : 0 < 2 ^ (ex + 1074)) by (apply Z.pow_pos_nonneg; lia).
    assert (Py : 0 < 2 ^ (ey + 1074)) by (apply Z.pow_pos_nonneg; lia).
    f_equal. symmetry.
    destruct sx, sy.
    + (* both negative *)
      destruct (Z.compare_spec ex ey) as [E | L | G].
      * subst ey. rewrite compare_mul_pos by exact Px.
        change (Zneg mx ?= Zneg my) with (CompOpp (Zpos mx ?= Zpos my)).
        reflexivity.
      * apply Z.compare_gt_iff.
        pose proof (scaled_lt_of_exponent_lt mx ex my ey Hx L Hxm (Hyn ltac:(lia))).
        change (Zneg mx) with (- Zpos mx). change (Zneg my) with (- Zpos my).
        lia.
      * apply Z.compare_lt_iff.
        pose proof (scaled_lt_of_exponent_lt my ey mx ex Hy G Hym (Hxn ltac:(lia))).
        change (Zneg mx) with (- Zpos mx). change (Zneg my) with (- Zpos my).
        lia.
    + apply Z.compare_lt_iff. nia.
    + apply Z.compare_gt_iff. nia.
    + destruct (Z.compare_spec ex ey) as [E | L | G].
      * subst ey. rewrite compare_mul_pos by exact Px. reflexivity.
      * apply Z.compare_lt_iff.
        exact (scaled_lt_of_exponent_lt mx ex my ey Hx L Hxm (Hyn ltac:(lia))).
      * apply Z.compare_gt_iff.
        exact (scaled_lt_of_exponent_lt my ey mx ex Hy G Hym (Hxn ltac:(lia))).
Qed.

Lemma ltb_scaled x y :
  valid x = true -> valid y = true ->
  is_finite x = true -> is_finite y = true ->
  ltb x y = true <-> scaled x < scaled y.
Proof.
  intros Vx Vy Fx Fy. unfold ltb, SFltb.
  rewrite (SFcompare_scaled x y Vx Vy Fx Fy).
  destruct (Z.compare_spec (scaled x) (scaled y)); split; intros; try lia;
    try discriminate; reflexivity.
Qed.

(** The rational value is the scaled value over [2 ^ 1074]. *)
Lemma to_Q_scaled x :
  valid x = true -> is_finite x = true ->
  (to_Q x == Qmake (scaled x) (Z.to_pos (2 ^ 1074)))%Q.
Proof.
  intros Vx Fx.
  assert (P : 0 < 2 ^ 1074) by (apply Z.pow_pos_nonneg; lia).
  destruct x as [sx | sx | | sx mx ex]; try discriminate Fx.
  - reflexivity.
  - apply valid_finite_bounds in Vx. destruct Vx as (Hx & _ & _).
    rewrite scaled_finite. unfold to_Q. cbn [mantissa exponent].
    set (n := if sx then Zneg mx else Zpos mx).
    destruct (Z.leb_spec 0 ex) as [Hp | Hn].
    + unfold Qeq, inject_Z. cbn [Qnum Qden].
      rewrite Z2Pos.id by exact P.
      rewrite (Z.pow_add_r 2 ex 1074) by lia. ring.
    + unfold Qeq. cbn [Qnum Qden].
      assert (0 < 2 ^ (- ex)) by (apply Z.pow_pos_nonneg; lia).
      rewrite !Z2Pos.id by assumption.
      rewrite <- Z.mul_assoc. f_equal.
      rewrite <- Z.pow_add_r by lia. f_equal. lia.
Qed.

Lemma to_Q_lt_scaled x y :
  valid x = true -> valid y = true ->
  is_finite x = true -> is_finite y = true ->
  (to_Q x < to_Q y)%Q <-> scaled x < scaled y.
Proof.
  intros Vx Vy Fx Fy.
  rewrite (to_Q_scaled x Vx Fx), (to_Q_scaled y Vy Fy).
  unfold Qlt. cbn [Qnum Qden].
  assert (P : 0 < 2 ^ 1074) by (apply Z.pow_pos_nonneg; lia).
  rewrite Z2Pos.id by exact P.
  split; intros H.
  - apply Z.mul_lt_mono_pos_r in H; assumption.
  - apply Z.mul_lt_mono_pos_r; assumption.
Qed.

(** The C comparison [x < y] of two finite doubles is the comparison of
    their exact values. *)
Lemma ltb_to_Q x y :
  valid x = true -> valid y = true ->
  is_finite x = true -> is_finite y = true ->
  ltb x y = true <-> (to_Q x < to_Q y)%Q.
Proof.
  intros Vx Vy Fx Fy.
  rewrite (ltb_scaled x y Vx Vy Fx Fy).
  symmetry. apply to_Q_lt_scaled; assumption.
Qed.

End Binary64Facts.

(** ** The classifier *)

Import Binary64 Binary64Facts.

Lemma ltb_of_int t c :
  valid t = true -> is_finite t = true ->
  valid (of_int c) = true -> is_finite (of_int c) = true ->
  (to_Q (of_int c) == inject_Z c)%Q ->
  ltb t (of_int c) = true <-> (to_Q t < inject_Z c)%Q.
Proof.
  intros Vt Ft Vc Fc Ec.
  rewrite (ltb_to_Q t (of_int c) Vt Vc Ft Fc), Ec. reflexivity.
Qed.

Lemma ltb_threshold t c :
  valid t = true -> is_finite t = true ->
  In c boundaries ->
  if ltb t (of_int c) then (to_Q t < inject_Z c)%Q
  else (inject_Z c <= to_Q t)%Q.
Proof.
  intros Vt Ft Hc.
  assert (H : ltb t (of_int c) = true <-> (to_Q t < inject_Z c)%Q).
  { cbn in Hc.
    repeat (destruct Hc as [<- | Hc];
            [apply ltb_of_int; try assumption; reflexivity |]).
    contradiction. }
  destruct (ltb t (of_int c)).
  - apply H. reflexivity.
  - apply Qnot_lt_le. intros L. apply H in L. discriminate.
Qed.

Lemma in_range_temperatureRange t :
  valid t = true -> is_finite t = true ->
  in_range (temperatureRange t) (to_Q t).
Proof.
  intros Vt Ft.
  pose proof (ltb_threshold t 40 Vt Ft ltac:(cbn; tauto)) as H40.
  pose proof (ltb_threshold t 45 Vt Ft ltac:(cbn; tauto)) as H45.
  pose proof (ltb_threshold t 47 Vt Ft ltac:(cbn; tauto)) as H47.
  pose proof (ltb_threshold t 49 Vt Ft ltac:(cbn; tauto)) as H49.
  pose proof (ltb_threshold t 51 Vt Ft ltac:(cbn; tauto)) as H51.
  pose proof (ltb_threshold t 53 Vt Ft ltac:(cbn; tauto)) as H53.
  unfold temperatureRange.
  destruct (ltb t (of_int 40)); [exact H40 |].
  destruct (ltb t (of_int 45)); [split; assumption |].
  destruct (ltb t (of_int 47)); [split; assumption |].
  destruct (ltb t (of_int 49)); [split; assumption |].
  destruct (ltb t (of_int 51)); [split; assumption |].
  destruct (ltb t (of_int 53)); [split; assumption |].
  exact H53.
Qed.

Lemma in_range_unique r r' q : in_range r q -> in_range r' q -> r = r'.
Proof.
  destruct r, r'; cbn [in_range]; intros H H'; try reflexivity;
    exfalso; lra.
Qed.

Lemma in_range_total q : exists r, in_range r q.
Proof.
  destruct (Qlt_le_dec q 40); [exists TempBelow40; assumption |].
  destruct (Qlt_le_dec q 45); [exists Temp40To45; split; assumption |].
  destruct (Qlt_le_dec q 47); [exists Temp45To47; split; assumption |].
  destruct (Qlt_le_dec q 49); [exists Temp47To49; split; assumption |].
  destruct (Qlt_le_dec q 51); [exists Temp49To51; split; assumption |].
  destruct (Qlt_le_dec q 53); [exists Temp51To53; split; assumption |].
  exists TempAbove53; assumption.
Qed.

(** C1: on every finite double, [temperatureRange] returns the one band
    whose interval of the table holds the exact value of the temperature;
    the seven intervals partition the line, each value lying in exactly
    one; each boundary 40, 45, 47, 49, 51, 53 is classified into the band
    above it, and 45.0 into [Temp45To47]. *)
Theorem temperatureRange_partition (t : double) :
  valid t = true -> is_finite t = true ->
  (forall r, temperatureRange t = r <-> in_range r (to_Q t)) /\
  (forall q, exists r, in_range r q /\ forall r', in_range r' q -> r' = r) /\
  map (fun b => temperatureRange (of_int b)) boundaries = upper_ranges /\
  temperatureRange (of_int 45) = Temp45To47.
Proof.
  intros Vt Ft. split; [| split; [| split]].
  - intros r. pose proof (in_range_temperatureRange t Vt Ft) as H. split.
    + intros <-. exact H.
    + intros Hr. exact (in_range_unique _ _ _ H Hr).
  - intros q. destruct (in_range_total q) as [r Hr]. exists r. split.
    + exact Hr.
    + intros r' Hr'. exact (in_range_unique _ _ _ Hr' Hr).
  - reflexivity.
  - reflexivity.
Qed.

Lemma temperatureRange_partition_witness :
  let t := div (of_int 45000) (of_int 1000) in
  valid t = true /\ is_finite t = true /\
  (temperatureRange t = Temp45To47 <-> in_range Temp45To47 (to_Q t)).
Proof.
  split; [reflexivity | split; [reflexivity |]].
  exact (proj1 (temperatureRange_partition
                  (div (of_int 45000) (of_int 1000)) eq_refl eq_refl)
               Temp45To47).
Defined.

(** Outside the finite doubles: a NaN compares false with every
    threshold and falls through to [TempAbove53], as plus infinity does;
    minus infinity is in [TempBelow40]. *)
Remark temperatureRange_not_finite :
  temperatureRange S754_nan = TempAbove53 /\
  temperatureRange (S754_infinity false) = TempAbove53 /\
  temperatureRange (S754_infinity true) = TempBelow40.
Proof. repeat split. Qed.

(** The comparison is transitive on valid doubles, infinities included. *)
Lemma ltb_trans x y z :
  valid x = true -> valid y = true -> valid z = true ->
  ltb x y = true -> ltb y z = true -> ltb x z = true.
Proof.
  intros Vx Vy Vz Hxy Hyz.
  destruct (is_finite x) eqn:Fx, (is_finite y) eqn:Fy, (is_finite z) eqn:Fz.
  1: { rewrite ltb_scaled in * by assumption. lia. }
  all: unfold ltb, SFltb in *;
    destruct x as [sx | [|] | | sx mx ex]; try discriminate;
    destruct y as [sy | [|] | | sy my ey]; try discriminate;
    destruct z as [sz | [|] | | sz mz ez]; try discriminate;
    cbn in *; try discriminate; try reflexivity;
    repeat match goal with s : bool |- _ => destruct s end;
    cbn in *; try discriminate; try reflexivity.
Qed.

(** C8: [temperatureRange] is monotonic: if [t1 < t2] holds for two
    doubles, infinities included, the band of [t1] is not above the band
    of [t2] in the order [TempBelow40] < ... < [TempAbove53]. *)
Theorem temperatureRange_monotonic (t1 t2 : double) :
  valid t1 = true -> valid t2 = true ->
  ltb t1 t2 = true ->
  TempRange_to_Z (temperatureRange t1) <= TempRange_to_Z (temperatureRange t2).
Proof.
  intros V1 V2 H12.
  assert (T : forall c, valid (of_int c) = true ->
                        ltb t2 (of_int c) = true -> ltb t1 (of_int c) = true).
  { intros c Vc H2. exact (ltb_trans t1 t2 (of_int c) V1 V2 Vc H12 H2). }
  pose proof (T 40 eq_refl) as T40. pose proof (T 45 eq_refl) as T45.
  pose proof (T 47 eq_refl) as T47. pose proof (T 49 eq_refl) as T49.
  pose proof (T 51 eq_refl) as T51. pose proof (T 53 eq_refl) as T53.
  unfold temperatureRange.
  destruct (ltb t2 (of_int 40)); [rewrite (T40 eq_refl); cbn; lia |].
  destruct (ltb t2 (of_int 45));
    [rewrite (T45 eq_refl); destruct (ltb t1 (of_int 40)); cbn; lia |].
  destruct (ltb t2 (of_int 47));
    [rewrite (T47 eq_refl);
     destruct (ltb t1 (of_int 40)), (ltb t1 (of_int 45)); cbn; lia |].
  destruct (ltb t2 (of_int 49));
    [rewrite (T49 eq_refl);
     destruct (ltb t1 (of_int 40)), (ltb t1 (of_int 45)),
       (ltb t1 (of_int 47)); cbn; lia |].
  destruct (ltb t2 (of_int 51));
    [rewrite (T51 eq_refl);
     destruct (ltb t1 (of_int 40)), (ltb t1 (of_int 45)),
       (ltb t1 (of_int 47)), (ltb t1 (of_int 49)); cbn; lia |].
  destruct (ltb t2 (of_int 53));
    [rewrite (T53 eq_refl);
     destruct (ltb t1 (of_int 40)), (ltb t1 (of_int 45)),
       (ltb t1 (of_int 47)), (ltb t1 (of_int 49)), (ltb t1 (of_int 51));
     cbn; lia |].
  destruct (temperatureRange t1) eqn:E; unfold temperatureRange in E;
    destruct (ltb t1 (of_int 40)), (ltb t1 (of_int 45)),
       (ltb t1 (of_int 47)), (ltb t1 (of_int 49)), (ltb t1 (of_int 51)),
       (ltb t1 (of_int 53)); cbn; lia.
Qed.

Lemma temperatureRange_monotonic_witness :
  let t1 := div (of_int 44999) (of_int 1000) in
  let t2 := of_int 45 in
  valid t1 = true /\ valid t2 = true /\ ltb t1 t2 = true /\
  TempRange_to_Z (temperatureRange t1) <= TempRange_to_Z (temperatureRange t2).
Proof.
  split; [reflexivity | split; [reflexivity | split; [reflexivity |]]].
  exact (temperatureRange_monotonic
           (div (of_int 44999) (of_int 1000)) (of_int 45)
           eq_refl eq_refl eq_refl).
Defined.

(** ** The actuator and the run modes *)

Lemma setTempControls_spec tempRange verbose w :
  setTempControls tempRange verbose w =
  Some (match TempRange_of_Z tempRange with Some _ => 0 | None => -1 end,
        after_setTempControls tempRange verbose w).
Proof.
  destruct w as [fd t pf n1 n2 tr e].
  unfold setTempControls, after_setTempControls, opening, actuation, handle.
  cbn [gFileI2C gTemperature pFileTemperature i2c_setups freads trace env].
  unfold bind at 1. cbn [get].
  cbn [gFileI2C].
  destruct (fd =? 0); destruct (TempRange_of_Z tempRange) as [[] |];
    destruct verbose; cbn; rewrite <- ?app_assoc; reflexivity.
Qed.


(** Re-association of a log grown one call at a time. *)
Lemma fold_left_app_concat (A : Type) (ls : list (list A)) (tr : list A) :
  fold_left (@app A) ls tr = tr ++ List.concat ls.
Proof.
  revert tr. induction ls as [| l ls IH]; intros tr; cbn [fold_left List.concat].
  - symmetry. apply app_nil_r.
  - rewrite IH, app_assoc. reflexivity.
Qed.

Ltac chunks t tr :=
  lazymatch t with
  | tr => constr:(@nil (list Event))
  | ?x ++ ?y => let l := chunks x tr in constr:(l ++ [y])
  end.

Ltac reassociate tr :=
  lazymatch goal with
  | |- ?lhs = tr ++ _ =>
      let l := chunks lhs tr in
      let l' := eval cbv [app] in l in
      exact (fold_left_app_concat Event l' tr)
  end.


Lemma updateTemperature_spec w :
  pFileTemperature w = true ->
  updateTemperature w =
  Some (0, mkWorld (gFileI2C w) (reading (env w) (freads w)) true
                   (i2c_setups w) (S (freads w))
                   (trace w ++ [ERewind;
                                EFread (fread_count
                                          (fread_result (env w) (freads w)))])
                   (env w)).
Proof.
  destruct w as [fd t pf n1 n2 tr e]. cbn [pFileTemperature]. intros ->.
  unfold updateTemperature, rewind_temperature, fread_temperature, reading.
  cbv [bind get emit set_gTemperature ret gFileI2C gTemperature
       pFileTemperature i2c_setups freads trace env].
  rewrite <- app_assoc. reflexivity.
Qed.

Lemma TempRange_eqb_eq a b : TempRange_eqb a b = true <-> a = b.
Proof. destruct a, b; cbn; split; intros H; congruence. Qed.

Lemma runControlLoop_body_spec s w :
  pFileTemperature w = true ->
  runControlLoop_body s w = Some (after_cycle s w).
Proof.
  intros Hopen. unfold runControlLoop_body.
  unfold bind at 1. rewrite (updateTemperature_spec w Hopen).
  destruct w as [fd t pf n1 n2 tr e]. cbn [pFileTemperature] in Hopen. subst pf.
  cbn [gFileI2C gTemperature pFileTemperature i2c_setups freads trace env].
  unfold after_cycle, cycle_events, showProperties.
  cbn [gFileI2C gTemperature pFileTemperature i2c_setups freads trace env].
  set (rd := reading e n2).
  destruct (TempRange_eqb (temperatureRange rd) (oldRange s)) eqn:E.
  - cbv [bind get emit ret gFileI2C gTemperature delay
       pFileTemperature i2c_setups freads trace env Z.eqb negb].
    rewrite E. cbn [negb]. rewrite <- !app_assoc. reflexivity.
  - cbv [bind get emit ret gFileI2C gTemperature delay
       pFileTemperature i2c_setups freads trace env Z.eqb negb].
    rewrite E. cbn [negb]. rewrite setTempControls_spec.
    destruct (temperatureRange rd); cbn [TempRange_to_Z TempRange_of_Z];
    unfold after_setTempControls, opening, handle;
    cbn [gFileI2C gTemperature pFileTemperature i2c_setups freads trace env];
    rewrite <- !app_assoc; reflexivity.
Qed.


(** The observations distribute over the concatenation of logs. *)
Lemma register_writes_app a b :
  register_writes (a ++ b) = register_writes a ++ register_writes b.
Proof. apply flat_map_app. Qed.

Lemma shown_app a b : shown (a ++ b) = shown a ++ shown b.
Proof. apply flat_map_app. Qed.

Lemma applications_from_app a b l :
  applications_from l (a ++ b) =
  applications_from l a ++ applications_from (List.last (shown a) l) b.
Proof.
  revert l. induction a as [| e a IH]; intros l.
  - reflexivity.
  - destruct e; cbn [app applications_from]; try (rewrite IH; reflexivity).
    + (* a register write *)
      destruct (reg =? 8); rewrite IH; reflexivity.
    + (* a rendering *)
      rewrite IH. f_equal. f_equal.
      change (shown (EShow temperature :: a)) with (temperature :: shown a).
      destruct (shown a) as [| x xs] eqn:E; [reflexivity |].
      cbn [List.last].
      clear. revert x. induction xs as [| y ys IHy]; intros x; [reflexivity |].
      cbn [List.last]. apply IHy.
Qed.

(** What one cycle shows and writes. *)
Lemma cycle_events_observed s w :
  let t := reading (env w) (freads w) in
  let r := temperatureRange t in
  shown (cycle_events s w) = [t] /\
  register_writes (cycle_events s w) =
    (if TempRange_eqb r (oldRange s) then [] else band_writes r) /\
  forall l, applications_from l (cycle_events s w) =
    (if TempRange_eqb r (oldRange s) then [] else [(t, fan_duty_byte r)]).
Proof.
  intros t r. unfold cycle_events. fold t. fold r.
  destruct (TempRange_eqb r (oldRange s)).
  - repeat split.
  - unfold opening. destruct (gFileI2C w =? 0); destruct r; repeat split.
Qed.

(** Any number of cycles, from any locals: by induction on the number of
    cycles, the log grows by the renderings of the successive readings
    and by the applications suppression on change leaves. *)
Lemma iterate_runControlLoop_body n :
  forall s w,
    pFileTemperature w = true ->
    exists s' w' new,
      iterate n runControlLoop_body s w = Some (s', w') /\
      trace w' = trace w ++ new /\
      pFileTemperature w' = true /\ env w' = env w /\
      freads w' = (freads w + n)%nat /\
      let ts := map (reading (env w)) (seq (freads w) n) in
      shown new = ts /\
      register_writes new =
        flat_map band_writes (map snd (suppress (oldRange s) ts)) /\
      forall l, applications_from l new = applied (suppress (oldRange s) ts).
Proof.
  induction n as [| n IH]; intros s w Hopen.
  - exists s, w, []. cbn. rewrite app_nil_r, Nat.add_0_r.
    repeat split; assumption.
  - cbn [iterate]. unfold bind at 1.
    rewrite (runControlLoop_body_spec s w Hopen).
    destruct (cycle_events_observed s w) as (Hs & Hw & Ha).
    set (t := reading (env w) (freads w)) in *.
    set (r := temperatureRange t) in *.
    unfold after_cycle. fold t. fold r.
    set (w1 := mkWorld _ _ _ _ _ _ _).
    set (s1 := mkLoop _ _).
    destruct (IH s1 w1 Hopen)
      as (s' & w' & new & Hrun & Htr & Hp & He & Hf & Hobs).
    exists s', w', (cycle_events s w ++ new).
    split; [exact Hrun |].
    split; [rewrite Htr; subst w1; cbn [trace]; apply eq_sym, app_assoc |].
    split; [exact Hp |]. split; [exact He |].
    split; [rewrite Hf; subst w1; cbn [freads]; lia |].
    cbn [seq map suppress]. fold t. fold r.
    cbn zeta in Hobs. destruct Hobs as (Hs' & Hw' & Ha').
    subst w1 s1. cbn [env freads oldRange] in *.
    split; [rewrite shown_app, Hs, Hs'; reflexivity |].
    split.
    + rewrite register_writes_app, Hw, Hw'.
      destruct (TempRange_eqb r (oldRange s)); [reflexivity |].
      cbn [map flat_map snd]. reflexivity.
    + intros l. rewrite applications_from_app, Ha, Ha'.
      destruct (TempRange_eqb r (oldRange s)); reflexivity.
Qed.

Lemma init_spec w : init w = Some (init_result w, after_init w).
Proof.
  destruct w as [fd t pf n1 n2 tr e].
  unfold init, init_result, after_init.
  cbv [bind get emit ret wiringPiSetup wiringPiI2CSetup set_gFileI2C
       set_pFileTemperature fopen_temperature fprintf_stderr
       gFileI2C gTemperature pFileTemperature i2c_setups freads trace env].
  destruct (i2c_setup_result e n1 <? 0), (fopen_ok e); cbn [negb];
    rewrite <- ?app_assoc; reflexivity.
Qed.

(** The temperature sweep, from any world. *)
Lemma sweepTemperatures_run (w : World) :
  exists w' new,
    sweepTemperatures w = Some (tt, w') /\
    trace w' = trace w ++ new /\
    shown new = map of_int sweep_values /\
    register_writes new = flat_map band_writes all_ranges /\
    delays new = repeat 1000 35 /\
    forall l, applications_from l new =
      [(of_int 30, 0x00); (of_int 40, 0x02); (of_int 45, 0x04);
       (of_int 47, 0x06); (of_int 49, 0x08); (of_int 51, 0x09);
       (of_int 53, 0x01)].
Proof.
  destruct w as [fd t pf n1 n2 tr e].
  destruct fd as [| p | p].
  all: eexists; eexists; split; [cbv -[app]; reflexivity |].
  all: cbn [trace]; split; [reassociate tr |].
  all: repeat split; try intros l; vm_compute; reflexivity.
Qed.

(** The range sweep, from any world. *)
Lemma sweepTempRanges_run (w : World) :
  exists w' new,
    sweepTempRanges w = Some (0, w') /\
    trace w' = trace w ++ new /\
    reported new = [6; 5; 4; 3; 2; 1; 0; 0; 1; 2; 3; 4; 5; 6] /\
    register_writes new = flat_map band_writes (rev all_ranges ++ all_ranges) /\
    delays new = repeat 1000 14 /\
    shown new = [] /\
    forall l, List.length (applications_from l new) = 14%nat.
Proof.
  destruct w as [fd t pf n1 n2 tr e].
  destruct fd as [| p | p].
  all: eexists; eexists; split; [cbv -[app]; reflexivity |].
  all: cbn [trace]; split; [reassociate tr |].
  all: repeat split; try intros l; vm_compute; reflexivity.
Qed.

(** ** The actuator table *)

Lemma register_writes_actuation fd r verbose :
  register_writes (actuation fd (TempRange_to_Z r) verbose) = band_writes r /\
  write_handles (actuation fd (TempRange_to_Z r) verbose) = repeat fd 5 /\
  channel_calls (actuation fd (TempRange_to_Z r) verbose) = [].
Proof. destruct r, verbose; repeat split. Qed.

Lemma colour_injective : NoDup (map colour all_ranges).
Proof.
  cbn [map all_ranges colour].
  repeat (constructor; [cbn [In]; intuition congruence |]).
  constructor.
Qed.

(** C2: for every band, [setTempControls] writes the fan-duty register
    0x08 once, with the byte of the hardware table (0x00, 0x02, 0x04,
    0x06, 0x08, 0x09 and 0x01 for the bands in ascending order), then the
    registers 0x00 to 0x03 with the all-LEDs marker 0xff and the R, G and
    B of the band's colour; these five writes are the only register
    writes of the call, and the seven colours are pairwise distinct. *)
Theorem setTempControls_table (r : TempRange) (verbose : bool) (w : World) :
  (exists w' new,
      setTempControls (TempRange_to_Z r) verbose w = Some (0, w') /\
      trace w' = trace w ++ new /\
      register_writes new =
        [(0x08, fan_duty_byte r); (0x00, 0xff);
         (0x01, fst (fst (colour r))); (0x02, snd (fst (colour r)));
         (0x03, snd (colour r))] /\
      write_handles new = repeat (handle w) 5) /\
  map fan_duty_byte all_ranges = [0x00; 0x02; 0x04; 0x06; 0x08; 0x09; 0x01] /\
  map colour all_ranges =
    [(0, 136, 0); (0, 68, 68); (0, 0, 136); (68, 0, 68); (136, 0, 0);
     (255, 0, 0); (255, 255, 255)] /\
  NoDup (map colour all_ranges).
Proof.
  split; [| split; [reflexivity | split; [reflexivity | exact colour_injective]]].
  exists (after_setTempControls (TempRange_to_Z r) verbose w).
  exists (opening w ++ actuation (handle w) (TempRange_to_Z r) verbose
                   ++ [EClose (handle w)]).
  split.
  - rewrite setTempControls_spec. destruct r; reflexivity.
  - split; [reflexivity |].
    destruct (register_writes_actuation (handle w) r verbose) as (Hw & Hh & _).
    unfold register_writes, write_handles in *.
    rewrite !flat_map_app, Hw, Hh.
    unfold opening. destruct (gFileI2C w =? 0); destruct r; split; reflexivity.
Qed.

(** ** The channel *)

(** C9: every call of [setTempControls], whatever its arguments and on
    every path of its [switch], requests the channel first when the
    retained handle [gFileI2C] is 0, makes no other opening or closing
    call in between, ends with the [close] of the handle it worked on, and
    leaves [gFileI2C = 0]. *)
Theorem setTempControls_channel (tempRange : Z) (verbose : bool) (w : World) :
  exists rv w' body,
    setTempControls tempRange verbose w = Some (rv, w') /\
    gFileI2C w' = 0 /\
    trace w' = trace w ++ opening w ++ body ++ [EClose (handle w)] /\
    channel_calls body = [] /\
    opening w =
      (if gFileI2C w =? 0
       then [EI2CSetup 0x0d (i2c_setup_result (env w) (i2c_setups w))]
       else []) /\
    handle w =
      (if gFileI2C w =? 0 then i2c_setup_result (env w) (i2c_setups w)
       else gFileI2C w).
Proof.
  eexists. exists (after_setTempControls tempRange verbose w).
  exists (actuation (handle w) tempRange verbose).
  split; [apply setTempControls_spec |].
  split; [reflexivity |]. split; [reflexivity |].
  split.
  - unfold actuation.
    destruct (TempRange_of_Z tempRange) as [[] |], verbose; reflexivity.
  - unfold opening, handle. destruct (gFileI2C w =? 0); split; reflexivity.
Qed.

(** ** The sweeps *)

(** C7: [sweepTempRanges] applies the seven ranges in descending order
    (6 down to 0) and then in ascending order (0 up to 6), each time
    unconditionally, whatever the state it starts in: 14 applications,
    each followed by a pause of 1000 ms, and it returns 0. *)
Theorem sweepTempRanges_fourteen_applications (w : World) :
  exists w' new,
    sweepTempRanges w = Some (0, w') /\
    trace w' = trace w ++ new /\
    reported new = [6; 5; 4; 3; 2; 1; 0; 0; 1; 2; 3; 4; 5; 6] /\
    register_writes new =
      flat_map band_writes (rev all_ranges ++ all_ranges) /\
    List.length (applications new) = 14%nat /\
    delays new = repeat 1000 14.
Proof.
  destruct (sweepTempRanges_run w) as (w' & new & Hr & Ht & Hrep & Hw & Hd & _ & Ha).
  exists w', new. repeat split; try assumption. apply Ha.
Qed.

(** C3, as the claim states it, fails: started as
    [tempcontrol -t sweepTemperatures] on a bench where every call
    succeeds, the sweep makes seven applications, the first one at 30
    degrees, and not six. *)
Lemma sweepTemperatures_not_six_applications :
  exists w',
    main 0 ["tempcontrol"; "-t"; "sweepTemperatures"]%string
         (initial_world (bench_env [])) = Some (ExitIndeterminate, w') /\
    map fst (applications (trace w')) = map of_int [30; 40; 45; 47; 49; 51; 53] /\
    map fst (applications (trace w')) <> map of_int [40; 45; 47; 49; 51; 53] /\
    List.length (applications (trace w')) <> 6%nat.
Proof.
  eexists. split; [vm_compute; reflexivity |].
  split; [vm_compute; reflexivity |].
  split; [vm_compute; discriminate | vm_compute; discriminate].
Qed.

(** C3, amended: [sweepTemperatures] renders the temperatures 30, 31, ...,
    64 in ascending order and, its last applied range being initialised
    to [TempAbove53], applies the controls at the iterations whose range
    differs from the one applied last: at 30 (the first iteration, in
    [TempBelow40]) and at the transitions 40, 45, 47, 49, 51 and 53;
    seven applications over the sweep, one per range in ascending order. *)
Theorem sweepTemperatures_seven_applications (w : World) :
  exists w' new,
    sweepTemperatures w = Some (tt, w') /\
    trace w' = trace w ++ new /\
    sweep_values =
      [30; 31; 32; 33; 34; 35; 36; 37; 38; 39; 40; 41; 42; 43; 44; 45; 46;
       47; 48; 49; 50; 51; 52; 53; 54; 55; 56; 57; 58; 59; 60; 61; 62; 63;
       64] /\
    shown new = map of_int sweep_values /\
    applications new =
      [(of_int 30, 0x00); (of_int 40, 0x02); (of_int 45, 0x04);
       (of_int 47, 0x06); (of_int 49, 0x08); (of_int 51, 0x09);
       (of_int 53, 0x01)] /\
    applications new =
      applied (suppress TempAbove53 (map of_int sweep_values)) /\
    register_writes new = flat_map band_writes all_ranges /\
    List.length (applications new) = 7%nat.
Proof.
  destruct (sweepTemperatures_run w) as (w' & new & Hr & Ht & Hs & Hw & _ & Ha).
  exists w', new.
  split; [exact Hr |]. split; [exact Ht |]. split; [reflexivity |].
  split; [exact Hs |]. unfold applications. rewrite Ha.
  split; [reflexivity |]. split; [vm_compute; reflexivity |].
  split; [exact Hw | reflexivity].
Qed.

(** ** The control loop *)

(** The control loop, from any world in which the temperature file is
    open: the temperatures rendered are the successive readings, and the
    applications are those that suppression on change leaves, starting
    from [TempAbove53]. *)
Lemma runControlLoop_run (n : nat) (w : World) :
  pFileTemperature w = true ->
  exists s w' new,
    runControlLoop n w = Some (s, w') /\
    trace w' = trace w ++ new /\
    let ts := map (reading (env w)) (seq (freads w) n) in
    shown new = ts /\
    register_writes new =
      flat_map band_writes (map snd (suppress TempAbove53 ts)) /\
    applications new = applied (suppress TempAbove53 ts).
Proof.
  intros Hopen. unfold runControlLoop.
  destruct (iterate_runControlLoop_body n (mkLoop 0 TempAbove53) w Hopen)
    as (s & w' & new & Hr & Ht & _ & _ & _ & Hs & Hw & Ha).
  exists s, w', new. repeat split; try assumption. apply Ha.
Qed.

Lemma readings_prefix (f : nat -> double) (a n m : nat) :
  (n <= m)%nat -> map f (seq a n) = firstn n (map f (seq a m)).
Proof.
  revert a m. induction n as [| n IH]; intros a m H; [reflexivity |].
  destruct m as [| m]; [lia |].
  cbn [seq map firstn]. f_equal. apply IH. lia.
Qed.

(** Two successive cycles, in closed form. *)
Lemma two_cycles s w :
  pFileTemperature w = true ->
  runControlLoop_body s w = Some (after_cycle s w) /\
  runControlLoop_body (fst (after_cycle s w)) (snd (after_cycle s w)) =
    Some (after_cycle (fst (after_cycle s w)) (snd (after_cycle s w))) /\
  oldRange (fst (after_cycle s w)) =
    temperatureRange (reading (env w) (freads w)) /\
  reading (env (snd (after_cycle s w))) (freads (snd (after_cycle s w))) =
    reading (env w) (S (freads w)).
Proof.
  intros Hopen.
  split; [apply runControlLoop_body_spec; exact Hopen |].
  split; [apply runControlLoop_body_spec; exact Hopen |].
  split; [| reflexivity].
  unfold after_cycle. cbn [fst oldRange].
  destruct (TempRange_eqb _ (oldRange s)) eqn:E; [| reflexivity].
  apply TempRange_eqb_eq in E. symmetry. exact E.
Qed.

Lemma TempRange_eqb_refl r : TempRange_eqb r r = true.
Proof. apply TempRange_eqb_eq. reflexivity. Qed.

(** C6, as the claim states it in general, fails: two successive cycles
    that classify the same range need not make one sequence of register
    writes.  From program start with the readings 60 and 53 degrees both
    cycles classify [TempAbove53], the range the loop takes as applied
    when it starts, and no register is written and no handle requested at
    all. *)
Lemma runControlLoop_same_range_no_write :
  let w := after_init (initial_world steady_env) in
  pFileTemperature w = true /\
  temperatureRange (reading (env w) (freads w)) = TempAbove53 /\
  temperatureRange (reading (env w) (S (freads w))) = TempAbove53 /\
  (exists s w' new,
      runControlLoop 2 w = Some (s, w') /\
      trace w' = trace w ++ new /\
      List.length (shown new) = 2%nat /\
      register_writes new = [] /\
      register_writes new <> band_writes TempAbove53 /\
      channel_calls new = []) /\
  (exists w',
      main 2 ["tempcontrol"]%string (initial_world steady_env)
      = Some (Running, w') /\
      register_writes (trace w') = []).
Proof.
  cbv zeta.
  split; [reflexivity |].
  split; [vm_compute; reflexivity |].
  split; [vm_compute; reflexivity |].
  split.
  - do 2 eexists.
    exists [ERewind; EFread 6; EShow (of_int 60); EDelay 5000;
            ERewind; EFread 6; EShow (of_int 53); EDelay 5000].
    split; [vm_compute; reflexivity |].
    repeat split; try (vm_compute; reflexivity).
    vm_compute. discriminate.
  - eexists. split; vm_compute; reflexivity.
Qed.

(** C6, amended: in the control loop with the readings 38, 42, 42 and 61
    degrees, the ranges applied are [TempBelow40], [Temp40To45] and
    [TempAbove53]: three applications and four renderings, the third
    cycle applying nothing (one, two, two and three applications after
    one to four cycles).  In general, two successive cycles that classify
    the same range make the register writes of that range once if it
    differs from the range applied last, and none if it is that range;
    the second cycle makes none. *)
Theorem runControlLoop_suppression (w : World) :
  pFileTemperature w = true ->
  (map (reading (env w)) (seq (freads w) 4) = map of_int [38; 42; 42; 61] ->
   (exists s w' new,
       runControlLoop 4 w = Some (s, w') /\
       trace w' = trace w ++ new /\
       applications new =
         [(of_int 38, fan_duty_byte TempBelow40);
          (of_int 42, fan_duty_byte Temp40To45);
          (of_int 61, fan_duty_byte TempAbove53)] /\
       register_writes new =
         band_writes TempBelow40 ++ band_writes Temp40To45
                     ++ band_writes TempAbove53 /\
       List.length (applications new) = 3%nat /\
       List.length (shown new) = 4%nat) /\
   (forall n, (n <= 4)%nat ->
      exists s w' new,
        runControlLoop n w = Some (s, w') /\
        trace w' = trace w ++ new /\
        List.length (applications new) = List.nth n [0; 1; 2; 2; 3]%nat 0%nat /\
        List.length (shown new) = n)) /\
  (forall s,
      temperatureRange (reading (env w) (freads w)) =
      temperatureRange (reading (env w) (S (freads w))) ->
      exists s1 w1 s2 w2 new1 new2,
        runControlLoop_body s w = Some (s1, w1) /\
        runControlLoop_body s1 w1 = Some (s2, w2) /\
        trace w1 = trace w ++ new1 /\
        trace w2 = trace w1 ++ new2 /\
        register_writes new2 = [] /\
        register_writes (new1 ++ new2) =
          (if TempRange_eqb (temperatureRange (reading (env w) (freads w)))
                            (oldRange s)
           then []
           else band_writes (temperatureRange (reading (env w) (freads w))))).
Proof.
  intros Hopen. split.
  - intros Hread. split.
    + destruct (runControlLoop_run 4 w Hopen)
        as (s & w' & new & Hr & Ht & Hs & Hw & Ha).
      exists s, w', new.
      rewrite Hread in Hs, Hw, Ha. rewrite Ha, Hw, Hs.
      repeat split; assumption.
    + intros n Hn.
      destruct (runControlLoop_run n w Hopen)
        as (s & w' & new & Hr & Ht & Hs & _ & Ha).
      exists s, w', new.
      rewrite (readings_prefix _ _ n 4 Hn), Hread in Hs, Ha.
      rewrite Ha, Hs.
      split; [exact Hr |]. split; [exact Ht |].
      destruct n as [| [| [| [| [| n]]]]]; [| | | | | lia]; split; reflexivity.
  - intros s Hsame.
    destruct (two_cycles s w Hopen) as (H1 & H2 & Hold & Hnext).
    destruct (after_cycle s w) as [s1 w1] eqn:E1. cbn [fst snd] in *.
    destruct (after_cycle s1 w1) as [s2 w2] eqn:E2.
    exists s1, w1, s2, w2, (cycle_events s w), (cycle_events s1 w1).
    split; [exact H1 |]. split; [exact H2 |].
    split; [unfold after_cycle in E1; injection E1 as _ <-; reflexivity |].
    split; [unfold after_cycle in E2; injection E2 as _ <-; reflexivity |].
    destruct (cycle_events_observed s w) as (_ & Hw1 & _).
    destruct (cycle_events_observed s1 w1) as (_ & Hw2 & _).
    cbn zeta in Hw1, Hw2.
    rewrite Hnext, <- Hsame, Hold, TempRange_eqb_refl in Hw2.
    split; [exact Hw2 |].
    rewrite register_writes_app, Hw1, Hw2, app_nil_r. reflexivity.
Qed.

(** The same scenario from program start: [tempcontrol] without
    arguments, observed over four cycles. *)
Example main_continuous_scenario :
  exists w',
    main 4 ["tempcontrol"]%string (initial_world scenario_env)
    = Some (Running, w') /\
    applications (trace w') =
      [(of_int 38, 0x00); (of_int 42, 0x02); (of_int 61, 0x01)] /\
    List.length (shown (trace w')) = 4%nat /\
    delays (trace w') = repeat 5000 4.
Proof.
  eexists. split; [vm_compute; reflexivity |].
  repeat split; vm_compute; reflexivity.
Qed.

Lemma runControlLoop_suppression_witness :
  let w := after_init (initial_world scenario_env) in
  pFileTemperature w = true /\
  map (reading (env w)) (seq (freads w) 4) = map of_int [38; 42; 42; 61] /\
  exists s w' new,
    runControlLoop 4 w = Some (s, w') /\
    trace w' = trace w ++ new /\
    applications new =
      [(of_int 38, fan_duty_byte TempBelow40);
       (of_int 42, fan_duty_byte Temp40To45);
       (of_int 61, fan_duty_byte TempAbove53)] /\
    register_writes new =
      band_writes TempBelow40 ++ band_writes Temp40To45
                  ++ band_writes TempAbove53 /\
    List.length (applications new) = 3%nat /\
    List.length (shown new) = 4%nat.
Proof.
  split; [reflexivity |]. split; [vm_compute; reflexivity |].
  exact (proj1 (proj1 (runControlLoop_suppression
                         (after_init (initial_world scenario_env)) eq_refl)
                      eq_refl)).
Defined.

Lemma cycle_events_same s w :
  TempRange_eqb (temperatureRange (reading (env w) (freads w))) (oldRange s)
  = true ->
  register_writes (cycle_events s w) = [] /\
  channel_calls (cycle_events s w) = [].
Proof. intros E. unfold cycle_events. rewrite E. split; reflexivity. Qed.

(** C4, as the claim states it, fails: with the channel refused on the
    second cycle, where the range changes from [TempBelow40] to
    [Temp40To45], [setTempControls] still returns 0 and the loop takes
    [Temp40To45] as applied; on the third cycle the range is the same, the
    channel would be granted, and nothing is attempted. *)
Lemma runControlLoop_unavailable_not_retried :
  let w0 := after_init (initial_world unavailable_env) in
  exists s1 w1 s2 w2 s3 w3 new3,
    runControlLoop 1 w0 = Some (s1, w1) /\
    runControlLoop_body s1 w1 = Some (s2, w2) /\
    runControlLoop_body s2 w2 = Some (s3, w3) /\
    oldRange s1 = TempBelow40 /\
    handle w1 = -1 /\
    temperatureRange (reading (env w1) (freads w1)) = Temp40To45 /\
    returnValue s2 = 0 /\
    oldRange s2 = Temp40To45 /\
    oldRange s2 <> oldRange s1 /\
    temperatureRange (reading (env w2) (freads w2)) = Temp40To45 /\
    handle w2 = 5 /\
    trace w3 = trace w2 ++ new3 /\
    register_writes new3 = [] /\
    channel_calls new3 = [].
Proof.
  cbv zeta.
  do 6 eexists. exists [ERewind; EFread 6; EShow (of_int 42); EDelay 5000].
  split; [vm_compute; reflexivity |].
  split; [vm_compute; reflexivity |].
  split; [vm_compute; reflexivity |].
  repeat split; try (vm_compute; reflexivity).
  vm_compute. discriminate.
Qed.

(** C4, amended: in the control loop, a cycle leaves as the range applied
    last the range it classified, whatever the channel answered; the next
    cycle, when it classifies that same range, makes no register write
    and no channel request, so an actuation is not attempted again. *)
Theorem runControlLoop_no_retry (s : LoopState) (w : World) :
  pFileTemperature w = true ->
  exists s1 w1 s2 w2 new2,
    runControlLoop_body s w = Some (s1, w1) /\
    oldRange s1 = temperatureRange (reading (env w) (freads w)) /\
    runControlLoop_body s1 w1 = Some (s2, w2) /\
    trace w2 = trace w1 ++ new2 /\
    (temperatureRange (reading (env w) (S (freads w))) = oldRange s1 ->
     register_writes new2 = [] /\ channel_calls new2 = [] /\
     oldRange s2 = oldRange s1).
Proof.
  intros Hopen.
  destruct (two_cycles s w Hopen) as (H1 & H2 & Hold & Hnext).
  destruct (after_cycle s w) as [s1 w1] eqn:E1. cbn [fst snd] in *.
  destruct (after_cycle s1 w1) as [s2 w2] eqn:E2.
  exists s1, w1, s2, w2, (cycle_events s1 w1).
  split; [exact H1 |]. split; [exact Hold |]. split; [exact H2 |].
  unfold after_cycle in E2. injection E2 as Es2 Ew2.
  split; [rewrite <- Ew2; reflexivity |].
  intros Hsame.
  assert (E : TempRange_eqb
                (temperatureRange (reading (env w1) (freads w1)))
                (oldRange s1) = true).
  { rewrite Hnext, Hsame. apply TempRange_eqb_refl. }
  destruct (cycle_events_same s1 w1 E) as (Hw & Hc).
  split; [exact Hw |]. split; [exact Hc |].
  rewrite <- Es2. cbn [oldRange]. rewrite E. reflexivity.
Qed.

Lemma runControlLoop_no_retry_witness :
  let s := mkLoop 0 TempBelow40 in
  let w := mkWorld 0 (of_int 38) true 1 1 [] unavailable_env in
  pFileTemperature w = true /\
  exists s1 w1 s2 w2 new2,
    runControlLoop_body s w = Some (s1, w1) /\
    oldRange s1 = temperatureRange (reading (env w) (freads w)) /\
    runControlLoop_body s1 w1 = Some (s2, w2) /\
    trace w2 = trace w1 ++ new2 /\
    (temperatureRange (reading (env w) (S (freads w))) = oldRange s1 ->
     register_writes new2 = [] /\ channel_calls new2 = [] /\
     oldRange s2 = oldRange s1).
Proof.
  split; [reflexivity |].
  exact (runControlLoop_no_retry
           (mkLoop 0 TempBelow40)
           (mkWorld 0 (of_int 38) true 1 1 [] unavailable_env) eq_refl).
Defined.

(** ** The temperature reading *)

Lemma updateTemperature_value w rv w' :
  updateTemperature w = Some (rv, w') -> rv = 0.
Proof.
  destruct w as [fd t pf n1 n2 tr e].
  unfold updateTemperature, rewind_temperature, fread_temperature.
  cbv [bind get emit set_gTemperature ret crash gFileI2C gTemperature
       pFileTemperature i2c_setups freads trace env].
  destruct pf; intros H; [| discriminate].
  injection H as <- _. reflexivity.
Qed.

(** C10: [updateTemperature] returns 0 whenever it returns, whatever
    [fread] delivered, a failed read included; with the temperature file
    open it does return, having stored the value parsed from [buf].  A
    cycle of the control loop therefore never skips the classification:
    it ends with [returnValue] 0 and with the range of the temperature
    just stored as the range applied last. *)
Theorem updateTemperature_always_0 (s : LoopState) (w : World) :
  pFileTemperature w = true ->
  (forall v rv v', updateTemperature v = Some (rv, v') -> rv = 0) /\
  (exists w',
      updateTemperature w = Some (0, w') /\
      gTemperature w' = reading (env w) (freads w)) /\
  (exists s' w',
      runControlLoop_body s w = Some (s', w') /\
      returnValue s' = 0 /\
      gTemperature w' = reading (env w) (freads w) /\
      oldRange s' = temperatureRange (gTemperature w')).
Proof.
  intros Hopen. split; [exact updateTemperature_value |]. split.
  - eexists. split; [apply updateTemperature_spec; exact Hopen | reflexivity].
  - destruct (two_cycles s w Hopen) as (H1 & _ & Hold & _).
    destruct (after_cycle s w) as [s1 w1] eqn:E1. cbn [fst snd] in *.
    exists s1, w1. split; [exact H1 |].
    unfold after_cycle in E1. injection E1 as Es Ew.
    rewrite <- Es, <- Ew. cbn [returnValue gTemperature oldRange].
    split; [reflexivity |]. split; [reflexivity |].
    rewrite <- Es in Hold. exact Hold.
Qed.

Lemma updateTemperature_always_0_witness :
  let s := mkLoop 0 TempAbove53 in
  let w := after_init (initial_world failed_read_env) in
  pFileTemperature w = true /\
  fread_count (fread_result (env w) (freads w)) = 0%nat /\
  (exists w',
      updateTemperature w = Some (0, w') /\
      gTemperature w' = reading (env w) (freads w)) /\
  (exists s' w',
      runControlLoop_body s w = Some (s', w') /\
      returnValue s' = 0 /\
      gTemperature w' = reading (env w) (freads w) /\
      oldRange s' = temperatureRange (gTemperature w')).
Proof.
  split; [reflexivity |]. split; [reflexivity |].
  exact (proj2 (updateTemperature_always_0
                  (mkLoop 0 TempAbove53)
                  (after_init (initial_world failed_read_env)) eq_refl)).
Defined.

(** ** Start-up *)

Lemma init_result_failure e :
  i2c_setup_result e 0 < 0 \/ fopen_ok e = false ->
  init_result (initial_world e) = -1.
Proof.
  unfold init_result. cbn [initial_world env i2c_setups].
  intros [H | H].
  - destruct (fopen_ok e); [| reflexivity].
    cbn [negb]. destruct (Z.ltb_spec (i2c_setup_result e 0) 0); [reflexivity | lia].
  - rewrite H. reflexivity.
Qed.

Lemma main_init_failed cycles argv w :
  init_result w = -1 ->
  main cycles argv w =
  main_arguments argv
    (log [EStderr (Text ("Init failed" ++ nl))] (after_init w)).
Proof.
  intros H. unfold main. unfold bind at 1. rewrite init_spec, H. reflexivity.
Qed.

(** [init] renders nothing, writes no register and does not pause. *)
Lemma after_init_quiet e :
  let t := trace (after_init (initial_world e)) in
  shown t = [] /\ register_writes t = [] /\ delays t = [] /\ reported t = [].
Proof.
  unfold after_init. cbn [initial_world env i2c_setups trace app].
  destruct (i2c_setup_result e 0 <? 0), (fopen_ok e); repeat split.
Qed.

(** C5, on the code: when [init] fails it returns -1 and [main] prints
    "Init failed", but then goes on to its argument handling.  Without
    arguments the process prints the usage text and exits with -1, no
    mode entered; with [-t sweepTemperatures] or [-t sweepTempRanges] the
    sweep is run all the same. *)
Theorem main_init_failure_falls_through (cycles : nat) (e : Env) :
  i2c_setup_result e 0 < 0 \/ fopen_ok e = false ->
  (exists w1, init (initial_world e) = Some (-1, w1)) /\
  (exists w',
      main cycles ["tempcontrol"]%string (initial_world e)
      = Some (Exit (-1), w') /\
      In (EStderr (Text ("Init failed" ++ nl))) (trace w') /\
      shown (trace w') = [] /\ register_writes (trace w') = [] /\
      delays (trace w') = []) /\
  (exists w',
      main cycles ["tempcontrol"; "-t"; "sweepTemperatures"]%string
           (initial_world e)
      = Some (ExitIndeterminate, w') /\
      In (EStderr (Text ("Init failed" ++ nl))) (trace w') /\
      shown (trace w') = map of_int sweep_values /\
      register_writes (trace w') = flat_map band_writes all_ranges /\
      delays (trace w') = repeat 1000 35) /\
  (exists w',
      main cycles ["tempcontrol"; "-t"; "sweepTempRanges"]%string
           (initial_world e)
      = Some (Exit 0, w') /\
      In (EStderr (Text ("Init failed" ++ nl))) (trace w') /\
      reported (trace w') = [6; 5; 4; 3; 2; 1; 0; 0; 1; 2; 3; 4; 5; 6] /\
      register_writes (trace w') =
        flat_map band_writes (rev all_ranges ++ all_ranges) /\
      delays (trace w') = repeat 1000 14).
Proof.
  intros Hfail. apply init_result_failure in Hfail.
  destruct (after_init_quiet e) as (Qs & Qw & Qd & Qr). cbv zeta in *.
  split; [| split; [| split]].
  - eexists. rewrite init_spec, Hfail. reflexivity.
  - eexists. rewrite (main_init_failed _ _ _ Hfail).
    split; [reflexivity |]. cbn [trace log].
    split; [rewrite !in_app_iff; cbn [In]; tauto |].
    unfold shown, register_writes, delays in *.
    rewrite !flat_map_app, Qs, Qw, Qd. repeat split.
  - rewrite (main_init_failed _ _ _ Hfail).
    set (w2 := log [EStderr (Text ("sweepTemperatures" ++ nl))]
                   (log [EStderr (Text ("Init failed" ++ nl))]
                        (after_init (initial_world e)))).
    destruct (sweepTemperatures_run w2)
      as (w' & new & Hr & Ht & Hs & Hw & Hd & _).
    exists w'. split.
    + change (main_arguments _ _)
        with (bind sweepTemperatures (fun _ => ret ExitIndeterminate) w2).
      unfold bind. rewrite Hr. reflexivity.
    + rewrite Ht. subst w2. cbn [trace log].
      split; [rewrite !in_app_iff; cbn [In]; tauto |].
      unfold shown, register_writes, delays in *.
      rewrite !flat_map_app, Qs, Qw, Qd, Hs, Hw, Hd. repeat split.
  - rewrite (main_init_failed _ _ _ Hfail).
    set (w2 := log [EStderr (Text ("sweepTempRanges" ++ nl))]
                   (log [EStderr (Text ("Init failed" ++ nl))]
                        (after_init (initial_world e)))).
    destruct (sweepTempRanges_run w2)
      as (w' & new & Hr & Ht & Hrep & Hw & Hd & _).
    exists w'. split.
    + change (main_arguments _ _)
        with (bind sweepTempRanges (fun r => ret (Exit r)) w2).
      unfold bind. rewrite Hr. reflexivity.
    + rewrite Ht. subst w2. cbn [trace log].
      split; [rewrite !in_app_iff; cbn [In]; tauto |].
      unfold reported, register_writes, delays in *.
      rewrite !flat_map_app, Qr, Qw, Qd, Hrep, Hw, Hd. repeat split.
Qed.

Lemma main_init_failure_falls_through_witness :
  (i2c_setup_result no_sensor_env 0 < 0 \/ fopen_ok no_sensor_env = false) /\
  exists w',
    main 0 ["tempcontrol"; "-t"; "sweepTemperatures"]%string
         (initial_world no_sensor_env)
    = Some (ExitIndeterminate, w') /\
    In (EStderr (Text ("Init failed" ++ nl))) (trace w') /\
    shown (trace w') = map of_int sweep_values /\
    register_writes (trace w') = flat_map band_writes all_ranges /\
    delays (trace w') = repeat 1000 35.
Proof.
  split; [right; reflexivity |].
  exact (proj1 (proj2 (proj2 (main_init_failure_falls_through
                                0 no_sensor_env (or_intror eq_refl))))).
Defined.

(** * Further properties of the code *)

(** ** Start-up and dispatch *)

(** X1: [init] keeps the contract of its header: it returns 0 if the
    channel request gave a non-negative handle and the temperature file
    opened, and -1 otherwise.  It makes both requests whatever the first
    one gave, reports each failure on [stderr], and leaves the handle in
    [gFileI2C] and the stream in [pFileTemperature]. *)
Theorem init_contract (w : World) :
  let fd := i2c_setup_result (env w) (i2c_setups w) in
  let ok := fopen_ok (env w) in
  exists rv w' new,
    init w = Some (rv, w') /\
    (rv = 0 <-> 0 <= fd /\ ok = true) /\
    (rv = 0 \/ rv = -1) /\
    gFileI2C w' = fd /\
    pFileTemperature w' = ok /\
    trace w' = trace w ++ new /\
    channel_calls new = [EI2CSetup 0x0d fd] /\
    In (EFopen ok) new /\
    (In (EStderr (Text ("Could not init I2C" ++ nl))) new <-> fd < 0) /\
    (In (EStderr (Text ("Could not open temperature file" ++ nl))) new
     <-> ok = false).
Proof.
  cbv zeta. exists (init_result w), (after_init w).
  exists ([EWiringPiSetup;
           EI2CSetup 0x0d (i2c_setup_result (env w) (i2c_setups w))]
          ++ (if i2c_setup_result (env w) (i2c_setups w) <? 0
              then [EStderr (Text ("Could not init I2C" ++ nl))] else [])
          ++ [EFopen (fopen_ok (env w))]
          ++ (if negb (fopen_ok (env w))
              then [EStderr (Text ("Could not open temperature file" ++ nl))]
              else [])).
  split; [apply init_spec |].
  unfold init_result, after_init.
  cbn [gFileI2C pFileTemperature trace].
  destruct (Z.ltb_spec (i2c_setup_result (env w) (i2c_setups w)) 0)
    as [Hfd | Hfd];
    destruct (fopen_ok (env w)); cbn [negb app].
  all: repeat match goal with |- _ /\ _ => split end;
    try reflexivity; try (cbn; tauto); try (right; reflexivity);
    try (left; reflexivity).
  all: split; intros H; try lia; try discriminate H; try reflexivity;
    try (destruct H as [H1 H2]; try discriminate H2; lia);
    try (split; [lia | reflexivity]).
  all: cbn [In] in *;
    repeat match goal with
           | H : _ \/ _ |- _ => destruct H as [H | H]
           | H : _ = _ |- _ => discriminate H
           | H : False |- _ => contradiction
           end; try lia; try discriminate; auto 10.
Qed.

(** The cast of an [int] names an enumerator exactly within 0..6. *)
Lemma TempRange_of_Z_range (i : Z) :
  (0 <=? i) && (i <=? 6) = true <-> exists r, TempRange_of_Z i = Some r.
Proof.
  split.
  - intros H. apply andb_prop in H. destruct H as [H0 H6].
    apply Z.leb_le in H0. apply Z.leb_le in H6.
    assert (i = 0 \/ i = 1 \/ i = 2 \/ i = 3 \/ i = 4 \/ i = 5 \/ i = 6)
      as Hi by lia.
    repeat (destruct Hi as [-> | Hi]; [eexists; reflexivity |]).
    subst i. eexists; reflexivity.
  - intros [r Hr].
    destruct i as [| p | p]; [reflexivity | | discriminate Hr].
    do 3 (try destruct p as [p | p |]); try discriminate Hr; reflexivity.
Qed.

Lemma TempRange_of_to_Z r : TempRange_of_Z (TempRange_to_Z r) = Some r.
Proof. destruct r; reflexivity. Qed.

(** X2: [setTempControls] returns -1 exactly when its argument is outside
    the enumeration 0..6, and then writes no register; for an enumerator
    it returns 0 whatever the channel request gave, a refusal included.
    It touches neither the temperature nor the temperature stream, and
    reports the range on [stdout] only when [verbose] is set. *)
Theorem setTempControls_result (tempRange : Z) (verbose : bool) (w : World) :
  exists rv w' new,
    setTempControls tempRange verbose w = Some (rv, w') /\
    trace w' = trace w ++ new /\
    rv = (if (0 <=? tempRange) && (tempRange <=? 6) then 0 else -1) /\
    (if (0 <=? tempRange) && (tempRange <=? 6)
     then List.length (register_writes new) = 5%nat
     else register_writes new = []) /\
    reported new = (if verbose then [tempRange] else []) /\
    gTemperature w' = gTemperature w /\
    pFileTemperature w' = pFileTemperature w /\
    freads w' = freads w.
Proof.
  exists (match TempRange_of_Z tempRange with Some _ => 0 | None => -1 end).
  exists (after_setTempControls tempRange verbose w).
  exists (opening w ++ actuation (handle w) tempRange verbose
                   ++ [EClose (handle w)]).
  split; [apply setTempControls_spec |]. split; [reflexivity |].
  pose proof (TempRange_of_Z_range tempRange) as Hr.
  unfold register_writes, reported, actuation, opening.
  destruct ((0 <=? tempRange) && (tempRange <=? 6)).
  - destruct (proj1 Hr eq_refl) as [r ->].
    destruct (gFileI2C w =? 0), r, verbose; repeat split.
  - destruct (TempRange_of_Z tempRange) as [r |] eqn:E.
    + assert (false = true) as H by (apply Hr; exists r; reflexivity).
      discriminate H.
    + destruct (gFileI2C w =? 0), verbose; repeat split.
Qed.

(** ** The control loop and the temperature stream *)

Lemma runControlLoop_body_crash s w :
  pFileTemperature w = false -> runControlLoop_body s w = None.
Proof.
  destruct w as [fd t pf n1 n2 tr e]. cbn [pFileTemperature]. intros ->.
  reflexivity.
Qed.

Lemma updateTemperature_crash w :
  updateTemperature w = None <-> pFileTemperature w = false.
Proof.
  destruct (pFileTemperature w) eqn:E.
  - rewrite (updateTemperature_spec w E). split; discriminate.
  - split; [reflexivity | intros _].
    destruct w as [fd t pf n1 n2 tr e]. cbn [pFileTemperature] in E.
    subst pf. reflexivity.
Qed.

(** The sweeps and the temperature file, from any world. *)
Lemma sweepTemperatures_sensor (w : World) :
  exists w' new,
    sweepTemperatures w = Some (tt, w') /\
    trace w' = trace w ++ new /\
    sensor_calls new = [] /\
    gTemperature w' = of_int 64 /\
    gFileI2C w' = 0 /\
    pFileTemperature w' = pFileTemperature w /\
    freads w' = freads w.
Proof.
  destruct w as [fd t pf n1 n2 tr e].
  destruct fd as [| p | p].
  all: eexists; eexists; split; [cbv -[app]; reflexivity |].
  all: cbn [trace]; split; [reassociate tr |].
  all: repeat split; vm_compute; reflexivity.
Qed.

Lemma sweepTempRanges_sensor (w : World) :
  exists w' new,
    sweepTempRanges w = Some (0, w') /\
    trace w' = trace w ++ new /\
    sensor_calls new = [] /\
    shown new = [] /\
    gTemperature w' = gTemperature w /\
    gFileI2C w' = 0 /\
    pFileTemperature w' = pFileTemperature w /\
    freads w' = freads w.
Proof.
  destruct w as [fd t pf n1 n2 tr e].
  destruct fd as [| p | p].
  all: eexists; eexists; split; [cbv -[app]; reflexivity |].
  all: cbn [trace]; split; [reassociate tr |].
  all: repeat split; vm_compute; reflexivity.
Qed.

Lemma sensor_calls_app a b :
  sensor_calls (a ++ b) = sensor_calls a ++ sensor_calls b.
Proof. apply filter_app. Qed.

Lemma sensor_calls_stderr msgs :
  Forall (fun ev => exists m, ev = EStderr m) msgs -> sensor_calls msgs = [].
Proof.
  intros Hm. induction Hm as [| ev l [m ->] _ IH]; [reflexivity | exact IH].
Qed.

Lemma after_init_sensor w :
  sensor_calls (trace (after_init w)) = sensor_calls (trace w).
Proof.
  unfold after_init. cbn [trace]. rewrite sensor_calls_app.
  destruct (i2c_setup_result (env w) (i2c_setups w) <? 0),
           (fopen_ok (env w)); cbn; apply app_nil_r.
Qed.

(** ** The outcome of [main] *)

Lemma log_log a b w : log b (log a w) = log (a ++ b) w.
Proof. unfold log. cbn. rewrite app_assoc. reflexivity. Qed.

(** The argument handling with arguments that name no test. *)
Lemma main_arguments_error argv w :
  is_test argv "sweepTemperatures" = false ->
  is_test argv "sweepTempRanges" = false ->
  exists msgs,
    main_arguments argv w = Some (Exit (-1), log msgs w) /\
    msgs <> [] /\
    Forall (fun ev => exists m, ev = EStderr m) msgs.
Proof.
  unfold is_test, main_arguments.
  destruct (Z.of_nat (List.length argv) =? 3);
    [destruct (streq (List.nth 1 argv EmptyString) "-t") |]; cbn [andb negb orb].
  - intros -> ->.
    exists [EStderr (UnknownOption (List.nth 2 argv EmptyString))].
    split; [reflexivity |]. split; [discriminate |].
    repeat constructor. eexists; reflexivity.
  - intros _ _. eexists. split; [cbv [usage bind fprintf_stderr emit ret log
      gFileI2C gTemperature pFileTemperature i2c_setups freads trace env];
      rewrite <- !app_assoc; reflexivity |].
    split; [discriminate |]. repeat constructor; eexists; reflexivity.
  - intros _ _. eexists. split; [cbv [usage bind fprintf_stderr emit ret log
      gFileI2C gTemperature pFileTemperature i2c_setups freads trace env];
      rewrite <- !app_assoc; reflexivity |].
    split; [discriminate |]. repeat constructor; eexists; reflexivity.
Qed.

(** The argument handling with the name of a test. *)
Lemma main_arguments_sweepTemperatures argv w :
  is_test argv "sweepTemperatures" = true ->
  main_arguments argv w =
  bind sweepTemperatures (fun _ => ret ExitIndeterminate)
       (log [EStderr (Text ("sweepTemperatures" ++ nl))] w).
Proof.
  intros E1. unfold is_test in E1. apply andb_prop in E1.
  destruct E1 as [E1 E3]. apply andb_prop in E1. destruct E1 as [E1 E2].
  unfold main_arguments. rewrite E1, E2, E3. reflexivity.
Qed.

Lemma main_arguments_sweepTempRanges argv w :
  is_test argv "sweepTemperatures" = false ->
  is_test argv "sweepTempRanges" = true ->
  main_arguments argv w =
  bind sweepTempRanges (fun r => ret (Exit r))
       (log [EStderr (Text ("sweepTempRanges" ++ nl))] w).
Proof.
  intros E1 E2. unfold is_test in E1, E2. apply andb_prop in E2.
  destruct E2 as [E2 E4]. apply andb_prop in E2. destruct E2 as [E2 E3].
  rewrite E2, E3 in E1. cbn [andb] in E1.
  unfold main_arguments. rewrite E2, E3, E1, E4. reflexivity.
Qed.

(** A run of the argument handling that returns: its outcome is read off
    the arguments, and it has made no call on the temperature file. *)
Lemma main_arguments_returned argv w o w' :
  main_arguments argv w = Some (o, w') ->
  o = outcome_table false argv /\
  exists new, trace w' = trace w ++ new /\ sensor_calls new = [].
Proof.
  unfold outcome_table. cbn [andb]. intros H.
  destruct (is_test argv "sweepTemperatures") eqn:E1.
  - rewrite (main_arguments_sweepTemperatures argv w E1) in H.
    destruct (sweepTemperatures_sensor
                (log [EStderr (Text ("sweepTemperatures" ++ nl))] w))
      as (w1 & new & Hr & Ht & Hs & _).
    unfold bind in H. rewrite Hr in H. injection H as <- <-.
    split; [reflexivity |].
    exists ([EStderr (Text ("sweepTemperatures" ++ nl))] ++ new).
    split; [rewrite Ht; cbn [log trace]; symmetry; apply app_assoc |].
    rewrite sensor_calls_app, Hs. reflexivity.
  - destruct (is_test argv "sweepTempRanges") eqn:E2.
    + rewrite (main_arguments_sweepTempRanges argv w E1 E2) in H.
      destruct (sweepTempRanges_sensor
                  (log [EStderr (Text ("sweepTempRanges" ++ nl))] w))
        as (w1 & new & Hr & Ht & Hs & _).
      unfold bind in H. rewrite Hr in H. injection H as <- <-.
      split; [reflexivity |].
      exists ([EStderr (Text ("sweepTempRanges" ++ nl))] ++ new).
      split; [rewrite Ht; cbn [log trace]; symmetry; apply app_assoc |].
      rewrite sensor_calls_app, Hs. reflexivity.
    + destruct (main_arguments_error argv w E1 E2) as (msgs & Hr & _ & Hm).
      rewrite Hr in H. injection H as <- <-.
      split; [reflexivity |].
      exists msgs. split; [reflexivity | apply sensor_calls_stderr; exact Hm].
Qed.


Lemma init_result_ok w :
  (init_result w =? 0) = true -> pFileTemperature (after_init w) = true.
Proof.
  unfold init_result, after_init. cbn [pFileTemperature].
  destruct (fopen_ok (env w)); [reflexivity | discriminate].
Qed.

Lemma main_unfold cycles argv w :
  main cycles argv w =
  if init_result w =? 0 then
    if Z.of_nat (List.length argv) =? 1
    then bind (runControlLoop cycles) (fun _ => ret Running) (after_init w)
    else main_arguments argv (after_init w)
  else main_arguments argv
         (log [EStderr (Text ("Init failed" ++ nl))] (after_init w)).
Proof.
  unfold main. unfold bind at 1. rewrite init_spec.
  destruct (init_result w =? 0); cbn [negb]; [| reflexivity].
  destruct (Z.of_nat (List.length argv) =? 1); reflexivity.
Qed.

(** X3: [updateTemperature] crashes exactly when [pFileTemperature] is
    NULL ([rewind] dereferences it), and the control loop entered with a
    NULL stream crashes in its first cycle.  [main] does not get there:
    it enters the control loop only in the world [init] left with the
    stream open, and in every other mode a run that returns has made no
    call on the temperature file. *)
Theorem main_guards_stream (cycles : nat) (argv : list string) (e : Env) :
  (forall w, updateTemperature w = None <-> pFileTemperature w = false) /\
  (forall n w, pFileTemperature w = false -> runControlLoop (S n) w = None) /\
  (outcome_table (init_result (initial_world e) =? 0) argv = Running ->
   main cycles argv (initial_world e) =
     bind (runControlLoop cycles) (fun _ => ret Running)
          (after_init (initial_world e)) /\
   pFileTemperature (after_init (initial_world e)) = true) /\
  (outcome_table (init_result (initial_world e) =? 0) argv <> Running ->
   forall o w',
     main cycles argv (initial_world e) = Some (o, w') ->
     sensor_calls (trace w') = []).
Proof.
  split; [exact updateTemperature_crash |].
  split.
  { intros n w Hnull. unfold runControlLoop. cbn [iterate]. unfold bind.
    rewrite (runControlLoop_body_crash _ w Hnull). reflexivity. }
  rewrite main_unfold. unfold outcome_table.
  set (w1 := after_init (initial_world e)).
  assert (H1 : sensor_calls (trace w1) = []).
  { subst w1. rewrite after_init_sensor. reflexivity. }
  assert (Hargs : forall w o w',
             sensor_calls (trace w) = [] ->
             main_arguments argv w = Some (o, w') ->
             sensor_calls (trace w') = []).
  { intros w o w' Hw Hr.
    destruct (main_arguments_returned argv w o w' Hr) as (_ & new & Ht & Hs).
    rewrite Ht, sensor_calls_app, Hw, Hs. reflexivity. }
  destruct (init_result (initial_world e) =? 0) eqn:E; cbn [andb].
  - destruct (Z.of_nat (List.length argv) =? 1).
    + split; [| intros H; contradiction H; reflexivity].
      intros _. split; [reflexivity | exact (init_result_ok _ E)].
    + split.
      * destruct (is_test argv "sweepTemperatures"); [discriminate |].
        destruct (is_test argv "sweepTempRanges"); discriminate.
      * intros _ o w'. apply Hargs. exact H1.
  - split.
    + destruct (is_test argv "sweepTemperatures"); [discriminate |].
      destruct (is_test argv "sweepTempRanges"); discriminate.
    + intros _ o w'. apply Hargs.
      cbn [log trace]. rewrite sensor_calls_app, H1. reflexivity.
Qed.


(** X5: when the outcome is the error status -1 (wrong argument shape,
    unknown test, or no argument after a failed [init]), [main] has only
    added messages on [stderr] to what [init] did: nothing is rendered,
    no register is written, no pause is made, and the handle [init]
    obtained is left as it is, never closed. *)
Theorem main_usage_error (cycles : nat) (argv : list string) (e : Env) :
  outcome_table (init_result (initial_world e) =? 0) argv = Exit (-1) ->
  exists w' msgs,
    main cycles argv (initial_world e) = Some (Exit (-1), w') /\
    trace w' = trace (after_init (initial_world e)) ++ msgs /\
    msgs <> [] /\
    Forall (fun ev => exists m, ev = EStderr m) msgs /\
    gFileI2C w' = i2c_setup_result e 0 /\
    channel_calls (trace w') = [EI2CSetup 0x0d (i2c_setup_result e 0)].
Proof.
  unfold outcome_table. rewrite main_unfold.
  set (w1 := after_init (initial_world e)).
  assert (Hch : forall msgs,
             Forall (fun ev => exists m, ev = EStderr m) msgs ->
             channel_calls (trace w1 ++ msgs)
             = [EI2CSetup 0x0d (i2c_setup_result e 0)]).
  { intros msgs Hm. unfold channel_calls. rewrite filter_app.
    replace (filter _ msgs) with (@nil Event).
    - subst w1. unfold after_init.
      cbn [initial_world env i2c_setups trace app].
      destruct (i2c_setup_result e 0 <? 0), (fopen_ok e); reflexivity.
    - induction Hm as [| ev l [m ->] _ IH]; [reflexivity | exact IH]. }
  destruct (init_result (initial_world e) =? 0) eqn:E; cbn [andb].
  - destruct (Z.of_nat (List.length argv) =? 1); [discriminate |].
    destruct (is_test argv "sweepTemperatures") eqn:E1; [discriminate |].
    destruct (is_test argv "sweepTempRanges") eqn:E2; [discriminate |].
    intros _.
    destruct (main_arguments_error argv w1 E1 E2) as (msgs & Hr & Hne & Hm).
    exists (log msgs w1), msgs. split; [exact Hr |].
    split; [reflexivity |]. split; [exact Hne |]. split; [exact Hm |].
    split; [reflexivity | apply Hch; exact Hm].
  - destruct (is_test argv "sweepTemperatures") eqn:E1; [discriminate |].
    destruct (is_test argv "sweepTempRanges") eqn:E2; [discriminate |].
    intros _.
    destruct (main_arguments_error
                argv (log [EStderr (Text ("Init failed" ++ nl))] w1) E1 E2)
      as (msgs & Hr & Hne & Hm).
    exists (log msgs (log [EStderr (Text ("Init failed" ++ nl))] w1)).
    exists ([EStderr (Text ("Init failed" ++ nl))] ++ msgs).
    split; [exact Hr |].
    split; [cbn [log trace]; rewrite <- app_assoc; reflexivity |].
    split; [discriminate |].
    assert (Hall : Forall (fun ev => exists m, ev = EStderr m)
                          ([EStderr (Text ("Init failed" ++ nl))] ++ msgs)).
    { constructor; [eexists; reflexivity | exact Hm]. }
    split; [exact Hall |]. split; [reflexivity |].
    cbn [log trace]. rewrite <- app_assoc. apply Hch. exact Hall.
Qed.

Lemma main_usage_error_witness :
  let argv := ["tempcontrol"; "-x"]%string in
  outcome_table (init_result (initial_world (bench_env [])) =? 0) argv
  = Exit (-1) /\
  exists w' msgs,
    main 0 argv (initial_world (bench_env [])) = Some (Exit (-1), w') /\
    trace w' = trace (after_init (initial_world (bench_env []))) ++ msgs /\
    msgs <> [] /\
    Forall (fun ev => exists m, ev = EStderr m) msgs /\
    gFileI2C w' = i2c_setup_result (bench_env []) 0 /\
    channel_calls (trace w')
    = [EI2CSetup 0x0d (i2c_setup_result (bench_env []) 0)].
Proof.
  split; [reflexivity |].
  exact (main_usage_error 0 ["tempcontrol"; "-x"]%string (bench_env [])
                          eq_refl).
Defined.

(** ** The channel protocol *)

Lemma follows_protocol_app a b h :
  follows_protocol h (a ++ b) =
  match follows_protocol h a with
  | Some h' => follows_protocol h' b
  | None => None
  end.
Proof.
  revert h. induction a as [| e a IH]; intros h; [reflexivity |].
  destruct e; cbn [app follows_protocol]; try apply IH.
  - destruct h; [reflexivity | apply IH].
  - destruct h as [h |]; [| reflexivity]. destruct (fd =? h); [apply IH | reflexivity].
  - destruct h as [h |]; [| reflexivity]. destruct (fd =? h); [apply IH | reflexivity].
Qed.

(** A log that follows the protocol does so up to any point. *)
Lemma follows_protocol_prefix a b h x :
  follows_protocol h (a ++ b) = Some x ->
  exists y, follows_protocol h a = Some y.
Proof.
  rewrite follows_protocol_app.
  destruct (follows_protocol h a) as [y |]; [| discriminate].
  intros _. exists y. reflexivity.
Qed.

(** In a log that follows the protocol every register write went to a
    descriptor the channel granted. *)
Lemma follows_protocol_handles t h x :
  (forall fd, h = Some fd -> 0 <= fd) ->
  follows_protocol h t = Some x ->
  Forall (fun fd => 0 <= fd) (write_handles t).
Proof.
  revert h. induction t as [| e t IH]; intros h Hh H; [constructor |].
  destruct e; cbn [follows_protocol] in H;
    try (exact (IH h Hh H)).
  - destruct h as [h |]; [discriminate H |].
    refine (IH _ _ H). intros fd0.
    destruct (Z.leb_spec 0 result); [| discriminate].
    intros E. injection E as <-. assumption.
  - destruct h as [h |]; [| discriminate H].
    destruct (Z.eqb_spec fd h) as [-> | _]; [| discriminate H].
    cbn [write_handles flat_map app]. constructor.
    + apply Hh. reflexivity.
    + exact (IH _ Hh H).
  - destruct h as [h |]; [| discriminate H].
    destruct (fd =? h); [| discriminate H].
    refine (IH None _ H). intros fd0 E. discriminate E.
Qed.

Section Protocol.

Context {A B : Type}.

Lemma keeps_ret (a : A) : keeps_protocol (ret a).
Proof.
  intros w a' w' _ H0 H. injection H as <- <-.
  split; [reflexivity |]. split; [exact H0 |]. exists [].
  split; [symmetry; apply app_nil_r | reflexivity].
Qed.

Lemma keeps_bind (m : M A) (k : A -> M B) :
  keeps_protocol m -> (forall a, keeps_protocol (k a)) ->
  keeps_protocol (bind m k).
Proof.
  intros Hm Hk w b w2 Hg H0 H. unfold bind in H.
  destruct (m w) as [[a w1] |] eqn:E; [| discriminate].
  destruct (Hm w a w1 Hg H0 E) as (E1 & G1 & n1 & T1 & P1).
  assert (Hg1 : granted (env w1)) by (rewrite E1; exact Hg).
  destruct (Hk a w1 b w2 Hg1 G1 H) as (E2 & G2 & n2 & T2 & P2).
  split; [rewrite E2; exact E1 |]. split; [exact G2 |].
  exists (n1 ++ n2). split.
  - rewrite T2, T1. symmetry. apply app_assoc.
  - rewrite follows_protocol_app, P1. exact P2.
Qed.

Lemma keeps_get_bind (k : World -> M B) :
  (forall w, keeps_protocol (k w)) -> keeps_protocol (bind get k).
Proof. intros Hk w b w' Hg H0 H. exact (Hk w w b w' Hg H0 H). Qed.

Lemma keeps_crash : keeps_protocol (@crash A).
Proof. intros w a w' _ _ H. discriminate H. Qed.

Lemma keeps_if (c : bool) (m1 m2 : M A) :
  keeps_protocol m1 -> keeps_protocol m2 ->
  keeps_protocol (if c then m1 else m2).
Proof. destruct c; auto. Qed.

End Protocol.

Lemma keeps_emit e : off_channel e = true -> keeps_protocol (emit e).
Proof.
  intros He w a w' _ H0 H. injection H as _ <-.
  split; [reflexivity |]. split; [exact H0 |]. exists [e].
  split; [reflexivity |].
  destruct e; try discriminate He; reflexivity.
Qed.

Lemma keeps_set_gTemperature t : keeps_protocol (set_gTemperature t).
Proof.
  intros w a w' _ H0 H. injection H as _ <-.
  split; [reflexivity |]. split; [exact H0 |]. exists [].
  split; [symmetry; apply app_nil_r | reflexivity].
Qed.

Lemma keeps_setTempControls tempRange verbose :
  keeps_protocol (setTempControls tempRange verbose).
Proof.
  intros w a w' Hg H0 H. rewrite setTempControls_spec in H.
  injection H as _ <-.
  split; [reflexivity |]. split; [cbn; lia |].
  eexists. split; [reflexivity |].
  unfold held_of at 1, opening, handle, actuation.
  cbn [after_setTempControls gFileI2C held_of Z.ltb Z.compare].
  destruct (Z.eqb_spec (gFileI2C w) 0) as [E | E].
  - rewrite E. cbn [Z.ltb Z.compare app follows_protocol].
    pose proof (Hg (i2c_setups w)) as Hfd.
    destruct (Z.leb_spec 0 (i2c_setup_result (env w) (i2c_setups w)));
      [| lia].
    destruct (TempRange_of_Z tempRange) as [r |], verbose;
      try destruct r;
      cbn [band_writes colour map fst snd app follows_protocol];
      rewrite ?Z.eqb_refl; reflexivity.
  - destruct (Z.ltb_spec 0 (gFileI2C w)); [| lia].
    cbn [app].
    destruct (TempRange_of_Z tempRange) as [r |], verbose;
      try destruct r;
      cbn [band_writes colour map fst snd app follows_protocol];
      rewrite ?Z.eqb_refl; reflexivity.
Qed.

Lemma keeps_updateTemperature : keeps_protocol updateTemperature.
Proof.
  intros w a w' _ H0 H.
  destruct (pFileTemperature w) eqn:E.
  - rewrite (updateTemperature_spec w E) in H. injection H as _ <-.
    split; [reflexivity |]. split; [exact H0 |].
    eexists. split; reflexivity.
  - apply updateTemperature_crash in E. rewrite E in H. discriminate H.
Qed.

Create HintDb protocol.
#[local] Hint Resolve keeps_ret keeps_crash keeps_set_gTemperature
  keeps_setTempControls keeps_updateTemperature : protocol.
#[local] Hint Extern 1 (keeps_protocol (emit _)) =>
  apply keeps_emit; reflexivity : protocol.
#[local] Hint Extern 1 (keeps_protocol (delay _)) =>
  apply keeps_emit; reflexivity : protocol.
#[local] Hint Extern 1 (keeps_protocol (fprintf_stderr _)) =>
  apply keeps_emit; reflexivity : protocol.
#[local] Hint Extern 2 (keeps_protocol (bind get _)) =>
  apply keeps_get_bind; intro : protocol.
#[local] Hint Extern 3 (keeps_protocol (bind _ _)) =>
  apply keeps_bind; [| intro] : protocol.
#[local] Hint Extern 2 (keeps_protocol (if _ then _ else _)) =>
  apply keeps_if : protocol.

Lemma keeps_showProperties : keeps_protocol showProperties.
Proof. unfold showProperties. auto 10 with protocol. Qed.

#[local] Hint Resolve keeps_showProperties : protocol.

Lemma keeps_for_loop (S : Type) fuel cond next (body : Z -> S -> M S) :
  (forall i s, keeps_protocol (body i s)) ->
  forall i s, keeps_protocol (for_loop fuel cond next body i s).
Proof.
  intros Hb. induction fuel as [| fuel IH]; intros i s; cbn [for_loop];
    destruct (cond i); auto with protocol.
Qed.

Lemma keeps_iterate n body :
  (forall s, keeps_protocol (body s)) ->
  forall s, keeps_protocol (iterate n body s).
Proof.
  intros Hb. induction n as [| n IH]; intros s; cbn [iterate];
    auto with protocol.
Qed.

Lemma keeps_sweepTemperatures : keeps_protocol sweepTemperatures.
Proof.
  unfold sweepTemperatures.
  apply keeps_bind; [| intros _; apply keeps_ret].
  apply keeps_for_loop. intros i s. unfold sweepTemperatures_body.
  auto 20 with protocol.
Qed.

Lemma keeps_sweepTempRanges : keeps_protocol sweepTempRanges.
Proof.
  assert (Hb : forall (i : Z) (s : unit),
             keeps_protocol (bind (setTempControls i true)
                                  (fun _ => delay 1000))).
  { intros i s. auto with protocol. }
  unfold sweepTempRanges.
  apply keeps_bind; [apply keeps_for_loop; exact Hb | intros _].
  apply keeps_bind; [apply keeps_for_loop; exact Hb | intros _].
  apply keeps_ret.
Qed.

Lemma keeps_runControlLoop cycles : keeps_protocol (runControlLoop cycles).
Proof.
  unfold runControlLoop. apply keeps_iterate. intros s.
  unfold runControlLoop_body. auto 20 with protocol.
Qed.

Lemma keeps_main_arguments argv : keeps_protocol (main_arguments argv).
Proof.
  pose proof keeps_sweepTemperatures. pose proof keeps_sweepTempRanges.
  unfold main_arguments, usage. auto 20 with protocol.
Qed.

(** [init], entered at program start with the request granted, leaves the
    handle it obtained open. *)
Lemma after_init_protocol e :
  granted e ->
  let w1 := after_init (initial_world e) in
  follows_protocol None (trace w1) = Some (held_of w1) /\
  0 <= gFileI2C w1 /\ env w1 = e.
Proof.
  intros Hg. pose proof (Hg 0%nat) as Hfd. cbv zeta.
  unfold after_init, held_of.
  cbn [initial_world env i2c_setups trace gFileI2C app follows_protocol].
  destruct (Z.ltb_spec (i2c_setup_result e 0) 0); [lia |].
  destruct (Z.leb_spec 0 (i2c_setup_result e 0)); [| lia].
  destruct (Z.ltb_spec 0 (i2c_setup_result e 0)); [| lia].
  split; [destruct (fopen_ok e); reflexivity |].
  split; [assumption | reflexivity].
Qed.

(** With a request refused the protocol is not kept: the registers are
    written through the -1 the refusal left in [gFileI2C]. *)
Example refused_request_breaks_protocol :
  exists w',
    main 2 ["tempcontrol"]%string (initial_world unavailable_env)
    = Some (Running, w') /\
    follows_protocol None (trace w') = None /\
    In (-1) (write_handles (trace w')).
Proof.
  eexists. split; [vm_compute; reflexivity |].
  split; [vm_compute; reflexivity |].
  vm_compute. right. right. right. right. right. left. reflexivity.
Qed.

(** X6: with every request for the channel granted, the log of a run of
    [main], in every mode and up to any point of it, follows the protocol
    of the channel: a handle is requested only when none is open,
    registers are written only through the handle that is open, a
    descriptor the channel granted, and [close] is only called on it.  In
    particular at most one handle is open at any time, and the handle
    open at the end is the one in [gFileI2C]. *)
Theorem main_follows_protocol (cycles : nat) (argv : list string) (e : Env)
        (o : Outcome) (w' : World) :
  granted e ->
  main cycles argv (initial_world e) = Some (o, w') ->
  follows_protocol None (trace w') = Some (held_of w') /\
  (forall pre post,
      trace w' = pre ++ post ->
      exists held, follows_protocol None pre = Some held) /\
  Forall (fun fd => 0 <= fd) (write_handles (trace w')).
Proof.
  intros Hg Hr.
  assert (P : follows_protocol None (trace w') = Some (held_of w')).
  { destruct (after_init_protocol e Hg) as (H1 & G1 & E1).
    set (w1 := after_init (initial_world e)) in *.
    assert (Hk : forall (m : M Outcome) w,
               keeps_protocol m ->
               env w = e -> 0 <= gFileI2C w ->
               follows_protocol None (trace w) = Some (held_of w) ->
               m w = Some (o, w') ->
               follows_protocol None (trace w') = Some (held_of w')).
    { intros m w Hm Ew Gw Hw Hrun.
      assert (Hgw : granted (env w)) by (rewrite Ew; exact Hg).
      destruct (Hm w o w' Hgw Gw Hrun) as (_ & _ & new & T & P).
      rewrite T, follows_protocol_app, Hw. exact P. }
    rewrite main_unfold in Hr. fold w1 in Hr.
    destruct (init_result (initial_world e) =? 0).
    - destruct (Z.of_nat (List.length argv) =? 1).
      + refine (Hk _ w1 _ E1 G1 H1 Hr).
        apply keeps_bind;
          [apply keeps_runControlLoop | intros _; apply keeps_ret].
      + exact (Hk _ w1 (keeps_main_arguments argv) E1 G1 H1 Hr).
    - refine (Hk _ (log [EStderr (Text ("Init failed" ++ nl))] w1)
                 (keeps_main_arguments argv) E1 G1 _ Hr).
      cbn [log trace gFileI2C held_of].
      rewrite follows_protocol_app, H1. reflexivity. }
  split; [exact P |]. split.
  - intros pre post Ht. rewrite Ht in P.
    exact (follows_protocol_prefix _ _ _ _ P).
  - refine (follows_protocol_handles _ None _ _ P). intros fd E. discriminate E.
Qed.

Lemma main_follows_protocol_witness :
  granted scenario_env /\
  exists o w',
    main 4 ["tempcontrol"]%string (initial_world scenario_env)
    = Some (o, w') /\
    follows_protocol None (trace w') = Some (held_of w') /\
    (forall pre post,
        trace w' = pre ++ post ->
        exists held, follows_protocol None pre = Some held) /\
    Forall (fun fd => 0 <= fd) (write_handles (trace w')).
Proof.
  assert (G : granted scenario_env).
  { intros k. unfold scenario_env, bench_env. cbn [i2c_setup_result]. lia. }
  split; [exact G |].
  eexists. eexists. split; [vm_compute; reflexivity |].
  refine (main_follows_protocol 4 ["tempcontrol"]%string scenario_env
                                _ _ G _).
  vm_compute. reflexivity.
Defined.

(** ** The sweeps and the sensor *)

(** X7: neither sweep touches the temperature file.  A run of
    [sweepTemperatures] that returns has called neither [rewind] nor
    [fread] and has left the stream and the count of reads as they were,
    the last simulated value, 64.0, in [gTemperature] and no handle in
    [gFileI2C].  [sweepTempRanges], which renders nothing, runs to its
    end from every world, also with the stream not open, with the same
    and with [gTemperature] as it was. *)
Theorem sweeps_leave_sensor_alone (w : World) :
  (forall u w',
      sweepTemperatures w = Some (u, w') ->
      exists new,
        trace w' = trace w ++ new /\
        sensor_calls new = [] /\
        gTemperature w' = of_int 64 /\
        gFileI2C w' = 0 /\
        pFileTemperature w' = pFileTemperature w /\
        freads w' = freads w) /\
  (exists w' new,
      sweepTempRanges w = Some (0, w') /\
      trace w' = trace w ++ new /\
      sensor_calls new = [] /\
      shown new = [] /\
      gTemperature w' = gTemperature w /\
      gFileI2C w' = 0 /\
      pFileTemperature w' = pFileTemperature w /\
      freads w' = freads w).
Proof.
  split; [| apply sweepTempRanges_sensor].
  intros u w' H.
  destruct (sweepTemperatures_sensor w) as (w1 & new & Hr & Hrest).
  rewrite Hr in H. injection H as _ <-.
  exists new. exact Hrest.
Qed.

(** ** The cycles of the control loop *)

Lemma cycle_events_shaped s w : cycle_shaped (cycle_events s w).
Proof.
  unfold cycle_shaped, cycle_events.
  set (t := reading (env w) (freads w)).
  exists (fread_count (fread_result (env w) (freads w))), t.
  eexists. split; [reflexivity |].
  destruct (TempRange_eqb (temperatureRange t) (oldRange s)).
  - repeat split. left. reflexivity.
  - unfold opening.
    destruct (gFileI2C w =? 0), (temperatureRange t); repeat split;
      right; reflexivity.
Qed.

Lemma iterate_cycles n :
  forall s w,
    pFileTemperature w = true ->
    exists s' w' blocks,
      iterate n runControlLoop_body s w = Some (s', w') /\
      trace w' = trace w ++ List.concat blocks /\
      List.length blocks = n /\
      Forall cycle_shaped blocks.
Proof.
  induction n as [| n IH]; intros s w Hopen.
  - exists s, w, []. cbn. rewrite app_nil_r. repeat split. constructor.
  - cbn [iterate]. unfold bind at 1.
    rewrite (runControlLoop_body_spec s w Hopen).
    destruct (after_cycle s w) as [s1 w1] eqn:E.
    assert (Hw1 : trace w1 = trace w ++ cycle_events s w
                  /\ pFileTemperature w1 = true).
    { unfold after_cycle in E. injection E as _ <-. split; [reflexivity |].
      exact Hopen. }
    destruct Hw1 as [Ht1 Hopen1].
    destruct (IH s1 w1 Hopen1) as (s' & w' & blocks & Hr & Ht & Hl & Hf).
    exists s', w', (cycle_events s w :: blocks).
    split; [exact Hr |].
    split; [rewrite Ht, Ht1; cbn [List.concat]; symmetry; apply app_assoc |].
    split; [cbn [List.length]; rewrite Hl; reflexivity |].
    constructor; [apply cycle_events_shaped | exact Hf].
Qed.

(** X8: entered with the temperature stream open, the control loop logs
    its cycles one after the other, and every cycle has the same shape:
    [rewind] and [fread] first, then the rendering, then the calls of at
    most one actuation (which, if there is one, writes the registers of
    the band of the temperature just rendered), and the pause of 5000 ms
    last.  So each cycle reads the sensor once, renders before it
    actuates, and pauses whether or not it actuated. *)
Theorem runControlLoop_cycles (n : nat) (w : World) :
  pFileTemperature w = true ->
  exists s w' blocks,
    runControlLoop n w = Some (s, w') /\
    trace w' = trace w ++ List.concat blocks /\
    List.length blocks = n /\
    Forall cycle_shaped blocks.
Proof. intros Hopen. apply iterate_cycles. exact Hopen. Qed.

Lemma runControlLoop_cycles_witness :
  let w := after_init (initial_world scenario_env) in
  pFileTemperature w = true /\
  exists s w' blocks,
    runControlLoop 4 w = Some (s, w') /\
    trace w' = trace w ++ List.concat blocks /\
    List.length blocks = 4%nat /\
    Forall cycle_shaped blocks.
Proof.
  split; [reflexivity |].
  exact (runControlLoop_cycles 4 (after_init (initial_world scenario_env))
                               eq_refl).
Defined.









(** ** Parsing the reading *)

Lemma atoi_digits_acc d :
  forall acc rest,
    atoi_digits (NilEmpty.string_of_uint d ++ rest) (Zpos acc) =
    atoi_digits rest (Zpos (Pos.of_uint_acc d acc)).
Proof.
  induction d as [| d IH | d IH | d IH | d IH | d IH | d IH | d IH | d IH
                  | d IH | d IH]; intros acc rest;
    [reflexivity | ..];
    cbn [NilEmpty.string_of_uint String.append atoi_digits Pos.of_uint_acc];
    match goal with
    | |- context [digit_of ?c] =>
        let v := eval vm_compute in (digit_of c) in
        change (digit_of c) with v
    end;
    cbv iota beta; rewrite <- IH; f_equal; lia.
Qed.

Lemma atoi_digits_uint d :
  forall rest,
    atoi_digits (NilEmpty.string_of_uint d ++ rest) 0 =
    atoi_digits rest (Z.of_N (Pos.of_uint d)).
Proof.
  induction d as [| d IH | d IH | d IH | d IH | d IH | d IH | d IH | d IH
                  | d IH | d IH]; intros rest;
    [reflexivity | ..];
    cbn [NilEmpty.string_of_uint String.append atoi_digits Pos.of_uint];
    match goal with
    | |- context [digit_of ?c] =>
        let v := eval vm_compute in (digit_of c) in
        change (digit_of c) with v
    end;
    cbv iota beta; [apply IH | ..];
    cbn [Z.mul Z.add Z.sub Z.of_N]; apply atoi_digits_acc.
Qed.

Lemma wrap_int_small z : - 2 ^ 31 <= z < 2 ^ 31 -> wrap_int z = z.
Proof.
  intros H. unfold wrap_int. rewrite Z.mod_small by lia. lia.
Qed.

Lemma saturate_long_small z :
  - 2 ^ 31 <= z < 2 ^ 31 -> wrap_int (saturate_long z) = z.
Proof.
  intros H. unfold saturate_long.
  rewrite Z.min_r by lia. rewrite Z.max_r by lia.
  apply wrap_int_small. exact H.
Qed.

Lemma atoi_decimal n c stale :
  0 <= n < 2 ^ 31 -> digit_of c = None ->
  atoi (decimal n ++ String c stale) = n.
Proof.
  intros Hn Hc. unfold decimal.
  assert (Hv : Z.of_N (Pos.of_uint (N.to_uint (Z.to_N n))) = n).
  { change (Pos.of_uint (N.to_uint (Z.to_N n)))
      with (N.of_uint (N.to_uint (Z.to_N n))).
    rewrite DecimalN.Unsigned.of_to. lia. }
  assert (Hd : atoi_digits
                 (NilEmpty.string_of_uint (N.to_uint (Z.to_N n))
                  ++ String c stale) 0 = n).
  { rewrite atoi_digits_uint. cbn [atoi_digits]. rewrite Hc. exact Hv. }
  assert (Hnil : N.to_uint (Z.to_N n) <> Decimal.Nil).
  { destruct (Z.to_N n); [discriminate |].
    apply DecimalPos.Unsigned.to_uint_nonnil. }
  destruct (N.to_uint (Z.to_N n)) eqn:E; [contradiction | ..];
    cbn [NilZero.string_of_uint NilEmpty.string_of_uint String.append] in *;
    unfold atoi; cbn [skip_spaces];
    match goal with
    | |- context [isspace ?a] =>
        let v := eval vm_compute in (isspace a) in
        change (isspace a) with v
    end;
    cbv iota beta; rewrite Hd; apply saturate_long_small; lia.
Qed.

Lemma atoi_digits_decimal n c stale :
  0 <= n -> digit_of c = None ->
  atoi_digits (decimal n ++ String c stale) 0 = n.
Proof.
  intros Hn Hc. unfold decimal.
  assert (Hnil : N.to_uint (Z.to_N n) <> Decimal.Nil).
  { destruct (Z.to_N n); [discriminate |].
    apply DecimalPos.Unsigned.to_uint_nonnil. }
  replace (NilZero.string_of_uint (N.to_uint (Z.to_N n)))
    with (NilEmpty.string_of_uint (N.to_uint (Z.to_N n)))
    by (destruct (N.to_uint (Z.to_N n)); [contradiction | reflexivity ..]).
  rewrite atoi_digits_uint. cbn [atoi_digits]. rewrite Hc.
  change (Pos.of_uint (N.to_uint (Z.to_N n)))
    with (N.of_uint (N.to_uint (Z.to_N n))).
  rewrite DecimalN.Unsigned.of_to. lia.
Qed.

Lemma atoi_decimal_int z c stale :
  - 2 ^ 31 <= z < 2 ^ 31 -> digit_of c = None ->
  atoi (decimal_int z ++ String c stale) = z.
Proof.
  intros Hz Hc. unfold decimal_int.
  destruct (Z.ltb_spec z 0) as [Hneg | Hpos].
  - cbn [String.append]. unfold atoi. cbn [skip_spaces].
    change (isspace "-") with false. cbv iota beta.
    rewrite atoi_digits_decimal by (try lia; exact Hc).
    rewrite saturate_long_small; lia.
  - apply atoi_decimal; [lia | exact Hc].
Qed.

(** X10: when [buf] holds the decimal text of an [int] (with its sign if
    negative) followed by a byte that is no digit -- the newline of the
    thermal zone -- [updateTemperature] stores that [int] divided by
    1000.0, whatever bytes follow: [fread] does not terminate [buf], and
    what the uninitialised buffer holds behind the text is not looked
    at. *)
Theorem updateTemperature_parses (z : Z) (c : ascii) (stale : string)
    (w : World) :
  - 2 ^ 31 <= z < 2 ^ 31 ->
  digit_of c = None ->
  pFileTemperature w = true ->
  fread_buf (fread_result (env w) (freads w))
  = (decimal_int z ++ String c stale)%string ->
  exists w',
    updateTemperature w = Some (0, w') /\
    gTemperature w' = div (of_int z) (of_int 1000).
Proof.
  intros Hz Hc Hopen Hbuf.
  eexists. split; [apply updateTemperature_spec; exact Hopen |].
  cbn [gTemperature]. unfold reading.
  rewrite Hbuf, (atoi_decimal_int z c stale Hz Hc). reflexivity.
Qed.

Lemma updateTemperature_parses_witness :
  let w := after_init (initial_world scenario_env) in
  (- 2 ^ 31 <= 38000 < 2 ^ 31) /\
  digit_of (ascii_of_nat 10) = None /\
  pFileTemperature w = true /\
  fread_buf (fread_result (env w) (freads w))
  = (decimal_int 38000 ++ String (ascii_of_nat 10) EmptyString)%string /\
  exists w',
    updateTemperature w = Some (0, w') /\
    gTemperature w' = div (of_int 38000) (of_int 1000).
Proof.
  split; [lia |]. split; [reflexivity |]. split; [reflexivity |].
  split; [reflexivity |].
  exact (updateTemperature_parses
           38000 (ascii_of_nat 10) EmptyString
           (after_init (initial_world scenario_env))
           ltac:(lia) eq_refl eq_refl eq_refl).
Defined.

(** ** The network label *)

Lemma length_append (a b : string) :
  String.length (a ++ b) = (String.length a + String.length b)%nat.
Proof.
  induction a as [| c a IH]; [reflexivity |].
  cbn [String.append String.length]. rewrite IH. reflexivity.
Qed.

(** X11: the loop of [showProperties] over the interfaces stops at the
    first IPv4 entry named eth0 or wlan0 in the order of the list -- a
    wlan0 entry that comes first is taken although an eth0 entry follows
    -- and writes "eth0:IP:" or "wlan0:" followed by the address, which
    fits [ipInfoTxt] with its terminator for every address [inet_ntop]
    can render.  With no such entry [ipInfoTxt] is not written; and an
    entry without address ([ifa_addr] NULL) that is reached before the
    stop crashes the process. *)
Theorem ipInfo_first_match (l : list ifaddrs) :
  match ipInfo l with
  | Some (Some text) =>
      exists before i a after,
        l = before ++ i :: after /\
        forallb has_address before = true /\
        forallb (fun j => negb (shown_interface j)) before = true /\
        ifa_addr i = Some a /\ sa_family a = AF_INET /\
        (ifa_name i = "eth0"%string /\
         text = ("eth0:IP:" ++ address_text a)%string
         \/ ifa_name i = "wlan0"%string /\
            text = ("wlan0:" ++ address_text a)%string) /\
        (Z.of_nat (String.length (address_text a)) < INET_ADDRSTRLEN ->
         Z.of_nat (String.length text) < MAX_SIZE)
  | Some None =>
      forallb has_address l = true /\
      forallb (fun j => negb (shown_interface j)) l = true
  | None =>
      exists before i after,
        l = before ++ i :: after /\
        forallb has_address before = true /\
        forallb (fun j => negb (shown_interface j)) before = true /\
        ifa_addr i = None
  end.
Proof.
  induction l as [| i l IH]; [split; reflexivity |].
  destruct (ifa_addr i) as [a |] eqn:Ea.
  2: { cbn [ipInfo]. rewrite Ea. exists [], i, l. repeat split. exact Ea. }
  assert (Ha : has_address i = true)
    by (unfold has_address; rewrite Ea; reflexivity).
  destruct (shown_interface i) eqn:Hi;
    unfold shown_interface in Hi; rewrite Ea in Hi.
  - (* the loop stops at [i] *)
    apply andb_prop in Hi. destruct Hi as [Hf Hn].
    cbn [ipInfo]. rewrite Ea, Hf. apply Z.eqb_eq in Hf.
    unfold streq in *.
    destruct (String.eqb_spec (ifa_name i) "eth0") as [He | He].
    + exists [], i, a, l. repeat split; try assumption.
      * left. split; [exact He | reflexivity].
      * intros Hlen. rewrite length_append. unfold INET_ADDRSTRLEN in Hlen.
        unfold MAX_SIZE. cbn [String.length]. lia.
    + cbn [orb] in Hn. rewrite Hn. apply String.eqb_eq in Hn.
      exists [], i, a, l. repeat split; try assumption.
      * right. split; [exact Hn | reflexivity].
      * intros Hlen. rewrite length_append. unfold INET_ADDRSTRLEN in Hlen.
        unfold MAX_SIZE. cbn [String.length]. lia.
  - (* the loop passes [i] *)
    assert (Hskip : ipInfo (i :: l) = ipInfo l).
    { cbn [ipInfo]. rewrite Ea.
      destruct (sa_family a =? AF_INET); [| reflexivity].
      cbn [andb] in Hi. apply orb_false_elim in Hi.
      destruct Hi as [-> ->]. reflexivity. }
    assert (Hi' : negb (shown_interface i) = true).
    { unfold shown_interface. rewrite Ea, Hi. reflexivity. }
    rewrite Hskip. destruct (ipInfo l) as [[text |] |].
    + destruct IH as (before & i0 & a0 & after & -> & H1 & H2 & H3).
      exists (i :: before), i0, a0, after. cbn [app forallb].
      rewrite Ha, Hi', H1, H2. repeat split; try reflexivity; apply H3.
    + destruct IH as (H1 & H2). cbn [forallb].
      rewrite Ha, Hi', H1, H2. split; reflexivity.
    + destruct IH as (before & i0 & after & -> & H1 & H2 & H3).
      exists (i :: before), i0, after. cbn [app forallb].
      rewrite Ha, Hi', H1, H2. repeat split; try reflexivity; exact H3.
Qed.

(** ** The division of the reading by 1000.0 *)

Module Binary64Division.
Import Binary64.

Lemma digits2_pos_unique (m : positive) (k : Z) :
  2 ^ (k - 1) <= Zpos m < 2 ^ k -> Zpos (digits2_pos m) = k.
Proof.
  intros [Hlo Hhi].
  pose proof (digits2_pos_bounds m) as [Dlo Dhi].
  assert (Hk : 0 < k).
  { destruct (Z.ltb_spec 0 k) as [H | H]; [exact H |].
    exfalso. destruct (Z.eq_dec k 0) as [-> | Hk0].
    - change (2 ^ 0) with 1 in Hhi. lia.
    - rewrite Z.pow_neg_r in Hhi by lia. lia. }
  destruct (Z.lt_trichotomy (Zpos (digits2_pos m)) k) as [L | [E | G]];
    [| exact E |]; exfalso.
  - assert (2 ^ Zpos (digits2_pos m) <= 2 ^ (k - 1))
      by (apply Z.pow_le_mono_r; lia). lia.
  - assert (2 ^ k <= 2 ^ (Zpos (digits2_pos m) - 1))
      by (apply Z.pow_le_mono_r; lia). lia.
Qed.

Lemma iter_xO_value (p k : positive) :
  Zpos (Pos.iter xO p k) = Zpos p * 2 ^ Zpos k.
Proof.
  induction k as [| k IH] using Pos.peano_ind.
  - cbn. lia.
  - rewrite Pos.iter_succ, Pos2Z.inj_succ, Z.pow_succ_r by lia.
    rewrite Pos2Z.inj_xO, IH. ring.
Qed.

Lemma iter_xO_digits (p k : positive) :
  Zpos (digits2_pos (Pos.iter xO p k)) = Zpos (digits2_pos p) + Zpos k.
Proof.
  induction k as [| k IH] using Pos.peano_ind.
  - cbn [Pos.iter digits2_pos]. lia.
  - rewrite Pos.iter_succ. cbn [digits2_pos].
    rewrite !Pos2Z.inj_succ, IH. lia.
Qed.

(** A mantissa of 53 digits with an exponent in range is a valid double. *)
Lemma valid_normal s m e :
  2 ^ 52 <= Zpos m < 2 ^ 53 -> -1074 <= e <= 971 ->
  valid (S754_finite s m e) = true.
Proof.
  intros Hm He. unfold valid, valid_binary, bounded, canonical_mantissa, fexp.
  rewrite (digits2_pos_unique m 53) by (change (53 - 1) with 52; exact Hm).
  rewrite emin_value. unfold prec, emax.
  apply andb_true_intro. split; [apply Z.eqb_eq | apply Z.leb_le]; lia.
Qed.

(** The second stage of [binary_round_aux]: a mantissa of 53 digits is
    rounded by its location to itself or its successor, and renormalised
    when the successor has 54 digits. *)
Lemma round_second_stage s (p : positive) (loc : location) (e : Z) :
  2 ^ 52 <= Zpos p < 2 ^ 53 -> -1074 <= e -> e + 1 <= 971 ->
  exists m' e' delta,
    (let '(mrs, e2) :=
       shr_fexp prec emax (round_nearest_even (Zpos p) loc) e loc_Exact in
     match shr_m mrs with
     | Z0 => S754_zero s
     | Zpos m => if e2 <=? emax - prec then S754_finite s m e2
                 else S754_infinity s
     | Zneg _ => S754_nan
     end) = S754_finite s m' e' /\
    (delta = 0 \/ delta = 1) /\
    e <= e' /\
    Zpos m' * 2 ^ (e' - e) = Zpos p + delta /\
    valid (S754_finite s m' e') = true.
Proof.
  intros Hp He1 He2.
  assert (Hr : round_nearest_even (Zpos p) loc = Zpos p
               \/ round_nearest_even (Zpos p) loc = Zpos (p + 1)).
  { destruct loc as [| []]; cbn [round_nearest_even]; auto.
    destruct (Z.even (Zpos p)); [left | right]; reflexivity. }
  assert (Hsame : forall q : positive,
             2 ^ 52 <= Zpos q < 2 ^ 53 ->
             shr_fexp prec emax (Zpos q) e loc_Exact
             = (Build_shr_record (Zpos q) false false, e)).
  { intros q Hq. unfold shr_fexp. cbn [Zdigits2 shr_record_of_loc].
    rewrite (digits2_pos_unique q 53) by (change (53 - 1) with 52; exact Hq).
    replace (fexp prec emax (53 + e) - e) with 0; [reflexivity |].
    unfold fexp. rewrite emin_value. unfold prec. lia. }
  destruct Hr as [-> | ->].
  - rewrite (Hsame p Hp). cbn [shr_m].
    replace (e <=? emax - prec) with true
      by (symmetry; apply Z.leb_le; unfold emax, prec; lia).
    exists p, e, 0. split; [reflexivity |]. split; [auto |].
    split; [lia |]. rewrite Z.sub_diag. split; [cbn; lia |].
    apply valid_normal; [exact Hp | lia].
  - destruct (Z.ltb_spec (Zpos (p + 1)) (2 ^ 53)) as [Hlt | Hge].
    + rewrite (Hsame (p + 1)%positive) by lia. cbn [shr_m].
      replace (e <=? emax - prec) with true
        by (symmetry; apply Z.leb_le; unfold emax, prec; lia).
      exists (p + 1)%positive, e, 1. split; [reflexivity |].
      split; [auto |]. split; [lia |]. rewrite Z.sub_diag.
      split; [cbn [Z.pow]; lia |].
      apply valid_normal; [lia | lia].
    + assert (Hp1 : (p + 1)%positive = 9007199254740992%positive).
      { assert (Zpos (p + 1) = 2 ^ 53) by lia.
        change (2 ^ 53) with (Zpos 9007199254740992) in H.
        injection H as H. exact H. }
      rewrite Hp1. unfold shr_fexp. cbn [Zdigits2 shr_record_of_loc].
      change (Zpos (digits2_pos 9007199254740992)) with 54.
      replace (fexp prec emax (54 + e) - e) with 1
        by (unfold fexp; rewrite emin_value; unfold prec; lia).
      cbn [shr iter_pos shr_1 shr_m orb].
      replace (e + 1 <=? emax - prec) with true
        by (symmetry; apply Z.leb_le; unfold emax, prec; lia).
      exists 4503599627370496%positive, (e + 1), 1.
      split; [reflexivity |]. split; [auto |]. split; [lia |].
      replace (e + 1 - e) with 1 by lia.
      split; [change (2 ^ 1) with 2; lia |].
      apply valid_normal; [split; [reflexivity | reflexivity] | lia].
Qed.


(** [binary_round_aux] on a quotient of 53 or 54 digits: the mantissa is
    the quotient, halved when it has 54 digits, or its successor. *)
Lemma round_aux_quotient s (q : positive) (l : location) (e : Z) :
  2 ^ 52 <= Zpos q < 2 ^ 54 -> -1074 <= e -> e + 2 <= 971 ->
  exists sh m' e' delta,
    binary_round_aux prec emax s (Zpos q) e l = S754_finite s m' e' /\
    (sh = 0 \/ sh = 1) /\
    (delta = 0 \/ delta = 1) /\
    e + sh <= e' /\
    Zpos m' * 2 ^ (e' - (e + sh)) = Zpos q / 2 ^ sh + delta /\
    valid (S754_finite s m' e') = true.
Proof.
  intros Hq He1 He2. unfold binary_round_aux.
  destruct (Z.ltb_spec (Zpos q) (2 ^ 53)) as [Hlt | Hge].
  - assert (H1 : shr_fexp prec emax (Zpos q) e l
                 = (shr_record_of_loc (Zpos q) l, e)).
    { unfold shr_fexp. cbn [Zdigits2].
      rewrite (digits2_pos_unique q 53)
        by (change (53 - 1) with 52; lia).
      replace (fexp prec emax (53 + e) - e) with 0; [reflexivity |].
      unfold fexp. rewrite emin_value. unfold prec. lia. }
    rewrite H1.
    assert (H2 : shr_m (shr_record_of_loc (Zpos q) l) = Zpos q)
      by (destruct l as [| []]; reflexivity).
    rewrite H2.
    destruct (round_second_stage
                s q (loc_of_shr_record (shr_record_of_loc (Zpos q) l)) e)
      as (m' & e' & delta & Hres & Hd & Hle & Hval & Hv); try lia.
    exists 0, m', e', delta. rewrite Hres.
    split; [reflexivity |]. split; [auto |]. split; [exact Hd |].
    rewrite Z.add_0_r. split; [exact Hle |].
    change (2 ^ 0) with 1. rewrite Z.div_1_r. split; [exact Hval | exact Hv].
  - assert (H1 : shr_fexp prec emax (Zpos q) e l
                 = (shr_1 (shr_record_of_loc (Zpos q) l), e + 1)).
    { unfold shr_fexp. cbn [Zdigits2].
      rewrite (digits2_pos_unique q 54)
        by (change (54 - 1) with 53; lia).
      replace (fexp prec emax (54 + e) - e) with 1; [reflexivity |].
      unfold fexp. rewrite emin_value. unfold prec. lia. }
    rewrite H1.
    assert (H2 : exists q' : positive,
               shr_m (shr_1 (shr_record_of_loc (Zpos q) l)) = Zpos q'
               /\ Zpos q / 2 = Zpos q').
    { destruct q as [q' | q' |].
      - exists q'. split; [destruct l as [| []]; reflexivity |].
        rewrite Pos2Z.inj_xI. symmetry.
        apply (Z.div_unique _ _ _ 1); lia.
      - exists q'. split; [destruct l as [| []]; reflexivity |].
        rewrite Pos2Z.inj_xO. symmetry.
        apply (Z.div_unique _ _ _ 0); lia.
      - exfalso. change (2 ^ 53) with 9007199254740992 in Hge. lia. }
    destruct H2 as (q' & H2 & Hhalf). rewrite H2.
    assert (Hq' : 2 ^ 52 <= Zpos q' < 2 ^ 53).
    { rewrite <- Hhalf. change (2 ^ 54) with (2 ^ 53 * 2) in Hq.
      change (2 ^ 53) with (2 ^ 52 * 2) in Hge. split.
      - apply Z.div_le_lower_bound; lia.
      - apply Z.div_lt_upper_bound; lia. }
    destruct (round_second_stage
                s q' (loc_of_shr_record
                        (shr_1 (shr_record_of_loc (Zpos q) l))) (e + 1))
      as (m' & e' & delta & Hres & Hd & Hle & Hval & Hv); try lia.
    exists 1, m', e', delta. rewrite Hres.
    split; [reflexivity |]. split; [auto |]. split; [exact Hd |].
    split; [exact Hle |].
    change (2 ^ 1) with 2. rewrite Hhalf. split; [exact Hval | exact Hv].
Qed.


(** An exact mantissa of 53 digits is left as it is. *)
Lemma round_aux_exact s (m : positive) (e : Z) :
  2 ^ 52 <= Zpos m < 2 ^ 53 -> -1074 <= e <= 971 ->
  binary_round_aux prec emax s (Zpos m) e loc_Exact = S754_finite s m e.
Proof.
  intros Hm He. unfold binary_round_aux.
  assert (H1 : shr_fexp prec emax (Zpos m) e loc_Exact
               = (Build_shr_record (Zpos m) false false, e)).
  { unfold shr_fexp. cbn [Zdigits2 shr_record_of_loc].
    rewrite (digits2_pos_unique m 53) by (change (53 - 1) with 52; exact Hm).
    replace (fexp prec emax (53 + e) - e) with 0; [reflexivity |].
    unfold fexp. rewrite emin_value. unfold prec. lia. }
  rewrite H1. cbn [shr_m loc_of_shr_record round_nearest_even].
  rewrite H1. cbn [shr_m].
  replace (e <=? emax - prec) with true
    by (symmetry; apply Z.leb_le; unfold emax, prec; lia).
  reflexivity.
Qed.

(** The conversion of an [int] of at most 52 binary digits: the digits,
    shifted to the top of the mantissa. *)
Lemma binary_round_int s (p k : positive) :
  Zpos (digits2_pos p) + Zpos k = 53 ->
  binary_round prec emax s p 0 = S754_finite s (Pos.iter xO p k) (Zneg k).
Proof.
  intros Hk. unfold binary_round.
  replace (fexp prec emax (Zpos (digits2_pos p) + 0)) with (Zneg k)
    by (unfold fexp; rewrite emin_value; unfold prec; lia).
  cbn [shl_align Z.sub Z.opp Z.add].
  apply round_aux_exact; [| lia].
  pose proof (digits2_pos_bounds (Pos.iter xO p k)) as H.
  rewrite iter_xO_digits, Hk in H. change (53 - 1) with 52 in H. exact H.
Qed.

Lemma div_eucl_div_mod a b : Z.div_eucl a b = (a / b, a mod b).
Proof.
  unfold Z.div, Z.modulo. destruct (Z.div_eucl a b). reflexivity.
Qed.

(** The double 1000.0. *)
Lemma of_int_1000 : of_int 1000 = S754_finite false 8796093022208000 (-43).
Proof. reflexivity. Qed.

(** The division of a normal double by 1000.0: the quotient of the
    mantissas, rounded. *)
Lemma div_1000_normal s (m : positive) (e : Z) :
  2 ^ 52 <= Zpos m < 2 ^ 53 -> -1000 <= e <= 900 ->
  exists l,
    div (S754_finite s m e) (of_int 1000) =
    binary_round_aux prec emax (xorb s false)
                     (Zpos m * 2 ^ 53 / 8796093022208000) (e - 10) l.
Proof.
  intros Hm He. rewrite of_int_1000. unfold div. cbn [SFdiv].
  unfold SFdiv_core_binary. cbn [Zdigits2].
  rewrite (digits2_pos_unique m 53) by (change (53 - 1) with 52; exact Hm).
  change (Zpos (digits2_pos 8796093022208000)) with 53.
  replace (Z.min (fexp prec emax (53 + e - (53 + -43))) (e - -43))
    with (e - 10)
    by (unfold fexp; rewrite emin_value; unfold prec; lia).
  replace (e - -43 - (e - 10)) with 53 by lia.
  rewrite Z.shiftl_mul_pow2 by lia.
  rewrite div_eucl_div_mod. eexists. reflexivity.
Qed.


(** An [int] of at most 32 binary digits, converted and divided by
    1000.0: the result is a valid double [m' * 2 ^ e'] that is, on a grid
    of step [2 ^ E] at least as fine as [2 ^ -11], the quotient rounded
    down or its successor. *)
Lemma div_1000_int s (p : positive) :
  Zpos (digits2_pos p) <= 32 ->
  exists m' e' E delta,
    div (binary_round prec emax s p 0) (of_int 1000) = S754_finite s m' e' /\
    valid (S754_finite s m' e') = true /\
    (delta = 0 \/ delta = 1) /\
    -1074 <= E <= -11 /\ E <= e' /\
    Zpos m' * 2 ^ (e' - E) = Zpos p * 2 ^ (- E) / 1000 + delta.
Proof.
  intros Hd.
  pose proof (digits2_pos_bounds p) as Hp.
  set (k := Z.to_pos (53 - Zpos (digits2_pos p))).
  assert (Hk : Zpos (digits2_pos p) + Zpos k = 53)
    by (subst k; rewrite Z2Pos.id; lia).
  assert (Hk1 : 21 <= Zpos k <= 52) by lia.
  rewrite (binary_round_int s p k Hk).
  assert (Hm : 2 ^ 52 <= Zpos (Pos.iter xO p k) < 2 ^ 53).
  { pose proof (digits2_pos_bounds (Pos.iter xO p k)) as H.
    rewrite iter_xO_digits, Hk in H. exact H. }
  destruct (div_1000_normal s (Pos.iter xO p k) (Zneg k) Hm ltac:(lia))
    as (l & Hdiv).
  rewrite Hdiv. clear Hdiv.
  replace (xorb s false) with s by (destruct s; reflexivity).
  set (q0 := Zpos (Pos.iter xO p k) * 2 ^ 53 / 8796093022208000).
  assert (Hq0 : 2 ^ 52 <= q0 < 2 ^ 54).
  { subst q0. change (2 ^ 52) with 4503599627370496 in *.
    change (2 ^ 53) with 9007199254740992 in *.
    change (2 ^ 54) with 18014398509481984. split.
    - apply Z.div_le_lower_bound; lia.
    - apply Z.div_lt_upper_bound; lia. }
  assert (Hq0eq : q0 = Zpos p * 2 ^ (Zpos k + 10) / 1000).
  { subst q0. rewrite iter_xO_value.
    change 8796093022208000 with (1000 * 2 ^ 43).
    replace (Zpos p * 2 ^ Zpos k * 2 ^ 53)
      with (Zpos p * 2 ^ (Zpos k + 10) * 2 ^ 43).
    - apply Z.div_mul_cancel_r; [lia | apply Z.pow_nonzero; lia].
    - rewrite Z.pow_add_r by lia.
      change (2 ^ 53) with (2 ^ 10 * 2 ^ 43). ring. }
  destruct q0 as [| q | q] eqn:Eq0;
    [change (2 ^ 52) with 4503599627370496 in Hq0; lia | | lia].
  destruct (round_aux_quotient s q l (Zneg k - 10) Hq0 ltac:(lia) ltac:(lia))
    as (sh & m' & e' & delta & Hres & Hsh & Hdelta & Hle & Hval & Hv).
  exists m', e', (Zneg k - 10 + sh), delta.
  split; [exact Hres |]. split; [exact Hv |]. split; [exact Hdelta |].
  split; [lia |]. split; [exact Hle |].
  rewrite Hval, Hq0eq. f_equal.
  destruct Hsh as [-> | ->].
  - change (2 ^ 0) with 1. rewrite Z.div_1_r.
    replace (- (Zneg k - 10 + 0)) with (Zpos k + 10) by lia. reflexivity.
  - change (2 ^ 1) with 2.
    rewrite Z.div_div by lia.
    replace (- (Zneg k - 10 + 1)) with (Zpos k + 9) by lia.
    replace (Zpos k + 10) with (Zpos k + 9 + 1) by lia.
    rewrite (Z.pow_add_r 2 (Zpos k + 9) 1) by lia.
    change (2 ^ 1) with 2. rewrite Z.mul_assoc.
    apply Z.div_mul_cancel_r; lia.
Qed.


Lemma scaled_boundary c : In c boundaries -> scaled (of_int c) = c * 2 ^ 1074.
Proof.
  cbn [boundaries In]. intros H.
  repeat (destruct H as [<- | H]; [vm_compute; reflexivity |]).
  contradiction.
Qed.

Lemma valid_boundary c :
  In c boundaries ->
  valid (of_int c) = true /\ is_finite (of_int c) = true /\ 40 <= c <= 53.
Proof.
  cbn [boundaries In]. intros H.
  repeat (destruct H as [<- | H];
          [split; [reflexivity | split; [reflexivity | lia]] |]).
  contradiction.
Qed.

(** The quotient on the grid, compared with a threshold that lies on the
    grid. *)
Lemma quotient_below (p G c delta : Z) :
  0 < p -> 2048 <= G -> 0 < c -> (delta = 0 \/ delta = 1) ->
  p * G / 1000 + delta < c * G <-> p < 1000 * c.
Proof.
  intros Hp HG Hc Hd.
  pose proof (Z.mul_div_le (p * G) 1000 ltac:(lia)) as Hlo.
  pose proof (Z.mul_succ_div_gt (p * G) 1000 ltac:(lia)) as Hhi.
  set (t := p * G / 1000) in *.
  split; intros H.
  - destruct (Z.lt_ge_cases p (1000 * c)) as [L | Ge]; [exact L |].
    exfalso.
    assert (1000 * c * G <= p * G) by (apply Z.mul_le_mono_nonneg_r; lia).
    lia.
  - assert (p * G <= (1000 * c - 1) * G)
      by (apply Z.mul_le_mono_nonneg_r; lia).
    lia.
Qed.

(** A positive [int] divided by 1000.0 is below a threshold of the
    classifier exactly when the [int] is below the thousandfold. *)
Lemma div_1000_threshold (p : positive) (c : Z) :
  Zpos (digits2_pos p) <= 32 -> In c boundaries ->
  ltb (div (of_int (Zpos p)) (of_int 1000)) (of_int c) = true
  <-> Zpos p < 1000 * c.
Proof.
  intros Hd Hc.
  change (of_int (Zpos p)) with (binary_round prec emax false p 0).
  destruct (div_1000_int false p Hd)
    as (m' & e' & E & delta & Hres & Hv & Hdelta & HE & Hle & Hval).
  destruct (valid_boundary c Hc) as (Vc & Fc & Hc40).
  rewrite Hres, (ltb_scaled _ _ Hv Vc eq_refl Fc).
  rewrite scaled_finite, (scaled_boundary c Hc).
  assert (HA : 0 < 2 ^ (E + 1074)) by (apply Z.pow_pos_nonneg; lia).
  assert (HG : 2 ^ 11 <= 2 ^ (- E)) by (apply Z.pow_le_mono_r; lia).
  change (2 ^ 11) with 2048 in HG.
  replace (2 ^ (e' + 1074)) with (2 ^ (e' - E) * 2 ^ (E + 1074))
    by (rewrite <- Z.pow_add_r by lia; f_equal; lia).
  replace (2 ^ 1074) with (2 ^ (- E) * 2 ^ (E + 1074))
    by (rewrite <- Z.pow_add_r by lia; f_equal; lia).
  rewrite !Z.mul_assoc, Hval.
  rewrite <- (Z.mul_lt_mono_pos_r _ _ _ HA).
  apply quotient_below; first [lia | exact Hdelta].
Qed.

End Binary64Division.

Import Binary64Division.

(** X12: the classifier and the division by 1000.0 agree with integer
    arithmetic on every 32-bit reading in millidegrees: the band of
    [n / 1000.0] is the band given by comparing [n] with 40000, 45000,
    47000, 49000, 51000 and 53000.  The rounding of the division never
    moves a reading across a boundary: 39999 is in [TempBelow40] and
    40000 in [Temp40To45]. *)
Theorem millidegrees_classified (n : Z) :
  - 2 ^ 31 <= n < 2 ^ 31 ->
  temperatureRange (div (of_int n) (of_int 1000)) = band_of_millidegrees n.
Proof.
  intros Hn. destruct n as [| p | p].
  - reflexivity.
  - assert (Hd : Zpos (digits2_pos p) <= 32).
    { pose proof (digits2_pos_bounds p) as [Hlo _].
      destruct (Z.le_gt_cases (Zpos (digits2_pos p)) 32) as [H | H];
        [exact H | exfalso].
      assert (2 ^ 32 <= 2 ^ (Zpos (digits2_pos p) - 1))
        by (apply Z.pow_le_mono_r; lia).
      change (2 ^ 32) with 4294967296 in *.
      change (2 ^ 31) with 2147483648 in *. lia. }
    assert (T : forall c, In c boundaries ->
                ltb (div (of_int (Zpos p)) (of_int 1000)) (of_int c)
                = (Zpos p <? 1000 * c)).
    { intros c Hc. pose proof (div_1000_threshold p c Hd Hc) as H.
      destruct (Z.ltb_spec (Zpos p) (1000 * c)) as [L | G].
      - apply H. exact L.
      - destruct (ltb _ (of_int c)); [| reflexivity].
        assert (Zpos p < 1000 * c) by (apply H; reflexivity). lia. }
    unfold temperatureRange, band_of_millidegrees.
    rewrite (T 40), (T 45), (T 47), (T 49), (T 51), (T 53)
      by (cbn [boundaries In]; tauto).
    reflexivity.
  - assert (Hd : Zpos (digits2_pos p) <= 32).
    { pose proof (digits2_pos_bounds p) as [Hlo _].
      destruct (Z.le_gt_cases (Zpos (digits2_pos p)) 32) as [H | H];
        [exact H | exfalso].
      assert (2 ^ 32 <= 2 ^ (Zpos (digits2_pos p) - 1))
        by (apply Z.pow_le_mono_r; lia).
      change (2 ^ 32) with 4294967296 in *.
      change (2 ^ 31) with 2147483648 in *. lia. }
    change (of_int (Zneg p)) with (binary_round prec emax true p 0).
    destruct (div_1000_int true p Hd) as (m' & e' & E & delta & Hres & _).
    rewrite Hres. reflexivity.
Qed.

Lemma millidegrees_classified_witness :
  (- 2 ^ 31 <= 39999 < 2 ^ 31) /\
  temperatureRange (div (of_int 39999) (of_int 1000))
  = band_of_millidegrees 39999.
Proof.
  split; [lia |]. exact (millidegrees_classified 39999 ltac:(lia)).
Defined.
